(** * CCTNS Copilot: query pipeline of the frontend services

    Shallow embedding of the TypeScript services of the CCTNS Copilot
    frontend:
    - [executeQuery], the mock database service ([services/mockDbService]);
    - [generateSqlAndSummary], the Gemini based SQL generator
      ([services/geminiService]);
    - [chartData], the chart shaping of the [DataTable] component;
    - [processQuery], the backend client ([services/apiService]).

    Strings are ASCII strings ([String.string]); JavaScript's Unicode case
    mapping and Unicode white space are restricted to their ASCII part.
    Numbers in cells and JSON payloads are integers ([Z]). A promise is
    modelled by its settled outcome ([Resolve] or [Reject]). *)

From Stdlib Require Import String Ascii List ZArith Bool Lia DecimalString Permutation.
Import ListNotations.

Local Open Scope string_scope.
Local Set Warnings "-register-all".


(* ------------------------------------------------------------------ *)
(** ** JavaScript string primitives *)

Module Js.

Definition dq : string := String (ascii_of_nat 34) EmptyString.
Definition nl : string := String (ascii_of_nat 10) EmptyString.
Definition backslash : string := String (ascii_of_nat 92) EmptyString.

(** [String.prototype.toLowerCase] on ASCII letters. *)
Definition lower_char (c : ascii) : ascii :=
  let n := nat_of_ascii c in
  if ((65 <=? n) && (n <=? 90))%nat then ascii_of_nat (n + 32)%nat else c.

Fixpoint toLowerCase (s : string) : string :=
  match s with
  | EmptyString => EmptyString
  | String c r => String (lower_char c) (toLowerCase r)
  end.

(** [p] is a prefix of [s]. *)
Fixpoint startsWith (s p : string) {struct p} : bool :=
  match p, s with
  | EmptyString, _ => true
  | String c p', String d s' => Ascii.eqb c d && startsWith s' p'
  | String _ _, EmptyString => false
  end.

(** [String.prototype.includes]: [p] occurs in [s] at some position. *)
Fixpoint includes (s p : string) : bool :=
  startsWith s p ||
  match s with
  | EmptyString => false
  | String _ s' => includes s' p
  end.

End Js.

Import Js.

(* ------------------------------------------------------------------ *)
(** ** Query results ([types.ts]) *)

(** A table cell: [string | number]. *)
Inductive cell : Type :=
| CStr (s : string)
| CNum (n : Z).

(** [interface QueryResult { columns; rows; query }]. *)
Record QueryResult : Type := mkQueryResult {
  columns : list string;
  rows : list (list cell);
  query : string
}.

(** The settled outcome of a promise: resolved with a value, or rejected
    with an error message. *)
Inductive promise (A : Type) : Type :=
| Resolve (a : A)
| Reject (msg : string).
Arguments Resolve {A} a.
Arguments Reject {A} msg.

(* ------------------------------------------------------------------ *)
(** ** The mock database service ([executeQuery]) *)

Module MockDb.

Record crime_rec := { crime_type : string; district : string; count : Z }.
Record arrest_rec := { officer_name : string; arrest_date : string;
                       fir_description : string }.
Record trend_rec := { month : string; station : string; fir_count : Z }.

(** The three synthetic tables; [executeQuery_in] is [executeQuery] with
    the tables given as an argument. *)
Record db := { MOCK_CRIME_DATA : list crime_rec;
               MOCK_ARREST_DATA : list arrest_rec;
               MOCK_FIR_TREND : list trend_rec }.

Definition crime (t d : string) (c : Z) : crime_rec :=
  {| crime_type := t; district := d; count := c |}.
Definition arrest (o a f : string) : arrest_rec :=
  {| officer_name := o; arrest_date := a; fir_description := f |}.
Definition trend (m : string) (c : Z) : trend_rec :=
  {| month := m; station := "Guntur I Town"; fir_count := c |}.

Definition mock_db : db := {|
  MOCK_CRIME_DATA := [
    crime "Theft" "Guntur" 120; crime "Assault" "Guntur" 45;
    crime "Burglary" "Guntur" 78; crime "Robbery" "Guntur" 30;
    crime "Theft" "Visakhapatnam" 150; crime "Assault" "Visakhapatnam" 60];
  MOCK_ARREST_DATA := [
    arrest "S. Kumar" "2025-05-15" "Theft of motorcycle";
    arrest "S. Kumar" "2025-05-22" "Shop burglary on Main St.";
    arrest "A. Reddy" "2025-06-01" "Assault case at market";
    arrest "S. Kumar" "2025-06-10" "Chain snatching incident"];
  MOCK_FIR_TREND := [
    trend "2024-07" 55; trend "2024-08" 62; trend "2024-09" 48;
    trend "2024-10" 70; trend "2024-11" 65; trend "2024-12" 75;
    trend "2025-01" 80; trend "2025-02" 72; trend "2025-03" 85;
    trend "2025-04" 90; trend "2025-05" 88; trend "2025-06" 95]
|}.

Definition is_guntur (d : crime_rec) : bool := String.eqb (district d) "Guntur".
Definition is_kumar (d : arrest_rec) : bool := includes (officer_name d) "Kumar".

(** The body of the [setTimeout] callback; the random delay does not
    influence the value the promise resolves with. *)
Definition executeQuery_in (D : db) (sql : string) : promise QueryResult :=
  let lowerSql := toLowerCase sql in
  if includes lowerSql "group by" && includes lowerSql "guntur" then
    Resolve {| columns := ["Crime Type"; "Total FIRs"];
               rows := map (fun d => [CStr (crime_type d); CNum (count d)])
                           (filter is_guntur (MOCK_CRIME_DATA D));
               query := sql |}
  else if includes lowerSql "officer_master" && includes lowerSql "kumar" then
    Resolve {| columns := ["Arresting Officer"; "Arrest Date"; "FIR Details"];
               rows := map (fun d => [CStr (officer_name d); CStr (arrest_date d);
                                      CStr (fir_description d)])
                           (filter is_kumar (MOCK_ARREST_DATA D));
               query := sql |}
  else if includes lowerSql "fir" && includes lowerSql "group by"
          && includes lowerSql "month" then
    Resolve {| columns := ["Month"; "FIR Count"];
               rows := map (fun d => [CStr (month d); CNum (fir_count d)])
                           (MOCK_FIR_TREND D);
               query := sql |}
  else
    Resolve {| columns := ["Crime Type"; "District"; "Total Count"];
               rows := map (fun d => [CStr (crime_type d); CStr (district d);
                                      CNum (count d)])
                           (MOCK_CRIME_DATA D);
               query := sql |}.

Definition executeQuery (sql : string) : promise QueryResult :=
  executeQuery_in mock_db sql.

End MockDb.

(* ------------------------------------------------------------------ *)
(** ** JSON values, [JSON.parse] and property access *)

Module Json.

Inductive jvalue : Type :=
| JNull
| JBool (b : bool)
| JNum (n : Z)
| JStr (s : string)
| JArr (l : list jvalue)
| JObj (fields : list (string * jvalue)).

Definition char_is (c : ascii) (n : nat) : bool := (nat_of_ascii c =? n)%nat.

Definition is_json_ws (c : ascii) : bool :=
  char_is c 9 || char_is c 10 || char_is c 13 || char_is c 32.

Definition is_digit (c : ascii) : bool :=
  ((48 <=? nat_of_ascii c) && (nat_of_ascii c <=? 57))%nat.

Fixpoint skip_ws (s : string) : string :=
  match s with
  | String c r => if is_json_ws c then skip_ws r else s
  | EmptyString => EmptyString
  end.

(** The character denoted by the escape [\c]; [\u] escapes are not
    modelled and make the parse fail. *)
Definition unescape (c : ascii) : option ascii :=
  if char_is c 34 then Some c
  else if char_is c 92 then Some c
  else if char_is c 47 then Some c
  else if char_is c 98 then Some (ascii_of_nat 8)
  else if char_is c 102 then Some (ascii_of_nat 12)
  else if char_is c 110 then Some (ascii_of_nat 10)
  else if char_is c 114 then Some (ascii_of_nat 13)
  else if char_is c 116 then Some (ascii_of_nat 9)
  else None.

(** Body of a string literal after its opening quote: the decoded
    contents and the text after the closing quote. *)
Fixpoint parse_chars (s : string) : option (string * string) :=
  match s with
  | EmptyString => None
  | String c r =>
      if char_is c 34 then Some (EmptyString, r)
      else if char_is c 92 then
        match r with
        | String e r' =>
            match unescape e, parse_chars r' with
            | Some d, Some (b, rest) => Some (String d b, rest)
            | _, _ => None
            end
        | EmptyString => None
        end
      else if (nat_of_ascii c <? 32)%nat then None
      else match parse_chars r with
           | Some (b, rest) => Some (String c b, rest)
           | None => None
           end
  end.

Fixpoint parse_digits (s : string) (acc : Z) : Z * string :=
  match s with
  | String c r =>
      if is_digit c then parse_digits r (acc * 10 + Z.of_nat (nat_of_ascii c - 48))
      else (acc, s)
  | EmptyString => (acc, s)
  end.

(** An integer literal: optional [-], then [0] or a non-zero digit
    followed by digits. Fractions and exponents are not modelled. *)
Definition parse_int (s : string) : option (Z * string) :=
  let '(neg, s') := match s with
                    | String c r => if char_is c 45 then (true, r) else (false, s)
                    | EmptyString => (false, s)
                    end in
  match s' with
  | String c r =>
      if char_is c 48 then Some (0%Z, r)
      else if is_digit c then
        let '(n, rest) := parse_digits r (Z.of_nat (nat_of_ascii c - 48)) in
        Some ((if neg then - n else n)%Z, rest)
      else None
  | EmptyString => None
  end.

Definition drop (n : nat) (s : string) : string := substring n (String.length s - n) s.

Fixpoint parse_value (fuel : nat) (s : string) {struct fuel}
  : option (jvalue * string) :=
  match fuel with
  | O => None
  | S f =>
      match skip_ws s with
      | EmptyString => None
      | String c r as s0 =>
          if char_is c 123 then
            match skip_ws r with
            | String d r' => if char_is d 125 then Some (JObj [], r')
                             else parse_members f (skip_ws r) []
            | EmptyString => None
            end
          else if char_is c 91 then
            match skip_ws r with
            | String d r' => if char_is d 93 then Some (JArr [], r')
                             else parse_elems f r []
            | EmptyString => None
            end
          else if char_is c 34 then
            match parse_chars r with
            | Some (b, rest) => Some (JStr b, rest)
            | None => None
            end
          else if startsWith s0 "true" then Some (JBool true, drop 4 s0)
          else if startsWith s0 "false" then Some (JBool false, drop 5 s0)
          else if startsWith s0 "null" then Some (JNull, drop 4 s0)
          else match parse_int s0 with
               | Some (n, rest) => Some (JNum n, rest)
               | None => None
               end
      end
  end
with parse_members (fuel : nat) (s : string) (acc : list (string * jvalue))
  {struct fuel} : option (jvalue * string) :=
  match fuel with
  | O => None
  | S f =>
      match s with
      | String c r =>
          if char_is c 34 then
            match parse_chars r with
            | Some (k, rest) =>
                match skip_ws rest with
                | String d rest' =>
                    if char_is d 58 then
                      match parse_value f rest' with
                      | Some (v, rest'') =>
                          match skip_ws rest'' with
                          | String e tl =>
                              if char_is e 44 then
                                parse_members f (skip_ws tl) (acc ++ [(k, v)])
                              else if char_is e 125 then
                                Some (JObj (acc ++ [(k, v)]), tl)
                              else None
                          | EmptyString => None
                          end
                      | None => None
                      end
                    else None
                | EmptyString => None
                end
            | None => None
            end
          else None
      | EmptyString => None
      end
  end
with parse_elems (fuel : nat) (s : string) (acc : list jvalue)
  {struct fuel} : option (jvalue * string) :=
  match fuel with
  | O => None
  | S f =>
      match parse_value f s with
      | Some (v, rest) =>
          match skip_ws rest with
          | String e tl =>
              if char_is e 44 then parse_elems f tl (acc ++ [v])
              else if char_is e 93 then Some (JArr (acc ++ [v]), tl)
              else None
          | EmptyString => None
          end
      | None => None
      end
  end.

(** [JSON.parse]: one value, surrounded by white space only; [None] is a
    thrown [SyntaxError]. *)
Definition JSON_parse (s : string) : option jvalue :=
  match parse_value (2 * String.length s + 2) s with
  | Some (v, rest) => if String.eqb (skip_ws rest) EmptyString then Some v else None
  | None => None
  end.

(** The result of reading a property [v.k]. *)
Inductive access : Type :=
| TypeError
| Undef
| Found (v : jvalue).

(** Later duplicates of a key override earlier ones in [JSON.parse]. *)
Fixpoint lookup_last (k : string) (l : list (string * jvalue)) : option jvalue :=
  match l with
  | [] => None
  | (k', v) :: r =>
      match lookup_last k r with
      | Some w => Some w
      | None => if String.eqb k k' then Some v else None
      end
  end.

(** Reading [sql], [summary], [error] or [detail] on a parsed value:
    [null] throws; strings, numbers, booleans and arrays have no such
    property. *)
Definition get (v : jvalue) (k : string) : access :=
  match v with
  | JNull => TypeError
  | JObj fs => match lookup_last k fs with Some w => Found w | None => Undef end
  | _ => Undef
  end.

Definition truthy (v : jvalue) : bool :=
  match v with
  | JNull => false
  | JBool b => b
  | JNum n => negb (n =? 0)%Z
  | JStr s => negb (String.eqb s EmptyString)
  | JArr _ | JObj _ => true
  end.

Definition truthy_access (a : access) : bool :=
  match a with Found v => truthy v | _ => false end.

End Json.

Import Json.

(* ------------------------------------------------------------------ *)
(** ** The SQL generator ([generateSqlAndSummary]) *)

Module Gen.

(** White space of [\s] and [String.prototype.trim], ASCII part. *)
Definition is_space (c : ascii) : bool :=
  let n := nat_of_ascii c in
  ((9 <=? n) && (n <=? 13) || (n =? 32))%nat.

(** Word characters of [\w]. *)
Definition is_word (c : ascii) : bool :=
  let n := nat_of_ascii c in
  ((48 <=? n) && (n <=? 57) || (65 <=? n) && (n <=? 90)
   || (97 <=? n) && (n <=? 122) || (n =? 95))%nat.

Fixpoint trim_start (s : string) : string :=
  match s with
  | String c r => if is_space c then trim_start r else s
  | EmptyString => EmptyString
  end.

Fixpoint trim_end (s : string) : string :=
  match s with
  | EmptyString => EmptyString
  | String c r =>
      let r' := trim_end r in
      if String.eqb r' EmptyString && is_space c then EmptyString else String c r'
  end.

Definition trim (s : string) : string := trim_end (trim_start s).

(** Longest prefix whose characters satisfy [p], and the rest. *)
Fixpoint span (p : ascii -> bool) (s : string) : string * string :=
  match s with
  | String c r =>
      if p c then let '(a, b) := span p r in (String c a, b) else (EmptyString, s)
  | EmptyString => (EmptyString, EmptyString)
  end.

Definition fence : string := "```".

(** [\n?\s*```$]: the rest is white space followed by the closing fence. *)
Definition closing_ok (r : string) : bool := String.eqb (snd (span is_space r)) fence.

(** The lazy group [(.*?)] (the [s] flag lets [.] match new lines): the
    shortest prefix after which [closing_ok] holds. *)
Fixpoint lazy_group (s : string) : option string :=
  if closing_ok s then Some EmptyString
  else match s with
       | String c r => option_map (String c) (lazy_group r)
       | EmptyString => None
       end.

(** [jsonStr.match(fenceRegex)] with [fenceRegex] the regular expression
    of [constants.ts] (opening fence, optional word group, white space, an
    optional new line, the lazy group 2, an optional new line, white space,
    closing fence at the end, [s] flag); the result is group 2. The greedy
    word group and white space take their longest match and the optional
    new line then matches empty; backtracking into them cannot produce a
    match the longest choice misses, since the characters they give back
    are word or space characters, never part of the closing fence. *)
Definition fence_match (s : string) : option string :=
  if startsWith s fence then
    let r := drop 3 s in
    let r1 := snd (span is_word r) in
    let r2 := snd (span is_space r1) in
    lazy_group r2
  else None.

(** [let jsonStr = response.text.trim(); ... if (match && match[2])
    jsonStr = match[2].trim();] *)
Definition strip_fence (text : string) : string :=
  let jsonStr := trim text in
  match fence_match jsonStr with
  | Some m => if String.eqb m EmptyString then jsonStr else trim m
  | None => jsonStr
  end.

(** [s.replace(/\\n/g, '\n')]: every backslash followed by [n] becomes a
    line feed. *)
Fixpoint replace_escaped_newlines (s : string) : string :=
  match s with
  | EmptyString => EmptyString
  | String c r =>
      if char_is c 92 then
        match r with
        | String d r' =>
            if char_is d 110 then String (ascii_of_nat 10) (replace_escaped_newlines r')
            else String c (replace_escaped_newlines r)
        | EmptyString => s
        end
      else String c (replace_escaped_newlines r)
  end.

Definition quoted (s : string) : string := dq ++ s ++ dq.

(** [SQL_GENERATION_PROMPT] of [constants.ts]. *)
Definition SQL_GENERATION_PROMPT : string :=
  String.concat nl [
    "";
    "Based on the provided CCTNS schema and the user's query, generate a valid SQL query and a brief, user-friendly summary of what the query does.";
    "Your response MUST be a JSON object with two keys: " ++ quoted "sql" ++ " and " ++ quoted "summary" ++ ".";
    "The " ++ quoted "sql" ++ " key must contain ONLY the SQL statement as a string.";
    "The " ++ quoted "summary" ++ " key must contain a short, one-sentence description in plain English explaining what data is being retrieved.";
    "";
    "Example user query: " ++ quoted "Show total crimes and breakdown by type for District = Guntur.";
    "Example JSON response:";
    "{";
    "  " ++ quoted "sql" ++ ": " ++ quoted "SELECT ct.description, COUNT(f.fir_id) FROM FIR f JOIN CRIME_TYPE_MASTER ct ON f.crime_type_id = ct.crime_type_id JOIN DISTRICT_MASTER d ON f.district_id = d.district_id WHERE d.district_name = 'Guntur' GROUP BY ct.description" ++ ",";
    "  " ++ quoted "summary" ++ ": " ++ quoted "This query retrieves the total count of crimes, broken down by crime type, for the Guntur district.";
    "}";
    "";
    "Do not add any other text, explanations, or formatting outside of the JSON object.";
    ""].

(** What the chat model does with one [sendMessage]: reply with a text,
    or fail (the returned promise rejects). *)
Inductive reply : Type :=
| Reply (text : string)
| ModelFailure (msg : string).

(** The chat session: the replies the model will give to the next
    messages, and the messages sent so far. *)
Record chat : Type := mkChat { pending : list reply; sent : list string }.

Definition sendMessage (c : chat) (msg : string) : reply * chat :=
  match pending c with
  | r :: rest => (r, mkChat rest (sent c ++ [msg]))
  | [] => (ModelFailure "no reply", mkChat [] (sent c ++ [msg]))
  end.

Definition invalid_response : string :=
  "The AI returned an invalid response. Please try rephrasing your query.".

(** The [try] block: [JSON.parse], the [sql]/[summary] test and the
    [replace] call; every exception it raises (a [SyntaxError], reading a
    property of [null], [replace] on a non-string, the explicit [throw])
    is caught and replaced by [invalid_response]. *)
Definition parse_reply (parse : string -> option jvalue) (jsonStr : string)
  : promise (string * jvalue) :=
  match parse jsonStr with
  | None => Reject invalid_response
  | Some parsedData =>
      match get parsedData "sql" with
      | Found sqlv =>
          if truthy sqlv then
            match get parsedData "summary" with
            | Found summary =>
                if truthy summary then
                  match sqlv with
                  | JStr sql => Resolve (replace_escaped_newlines sql, summary)
                  | _ => Reject invalid_response
                  end
                else Reject invalid_response
            | _ => Reject invalid_response
            end
          else Reject invalid_response
      | _ => Reject invalid_response
      end
  end.

(** [generateSqlAndSummary(chat, query)], with [JSON.parse] given as
    [parse]; the chat state is threaded through. *)
Definition generateSqlAndSummary_with (parse : string -> option jvalue)
  (c : chat) (query : string) : promise (string * jvalue) * chat :=
  let prompt := SQL_GENERATION_PROMPT ++ nl ++ nl ++ "User Query: " ++ quoted query in
  let '(response, c') := sendMessage c prompt in
  match response with
  | ModelFailure m => (Reject m, c')
  | Reply text => (parse_reply parse (strip_fence text), c')
  end.

Definition generateSqlAndSummary (c : chat) (query : string)
  : promise (string * jvalue) * chat :=
  generateSqlAndSummary_with JSON_parse c query.

End Gen.

(* ------------------------------------------------------------------ *)
(** ** Chart shaping of the data table ([chartData] in [DataTable.tsx]) *)

Module Chart.

(** A JavaScript number produced by [Number(...)]. *)
Inductive jsnum : Type := Num (z : Z) | NaN.

(** One chart point [{ name, value }]. *)
Record point : Type := mkPoint { name : string; value : jsnum }.

(** Normal completion, or a thrown exception. *)
Inductive completion (A : Type) : Type :=
| Normal (a : A)
| Throw (err : string).
Arguments Normal {A} a.
Arguments Throw {A} err.

Definition Z_to_string (z : Z) : string := NilZero.string_of_int (Z.to_int z).

(** [row[i]]: [None] is [undefined] (out of range). *)
Definition at_ (row : list cell) (i : Z) : option cell :=
  if (i <? 0)%Z then None else nth_error row (Z.to_nat i).

(** [String(x)]. *)
Definition js_String (x : option cell) : string :=
  match x with
  | Some (CStr s) => s
  | Some (CNum n) => Z_to_string n
  | None => "undefined"
  end.

(** [Number(s)] on a string: surrounding white space is ignored, the
    empty string is [0], an optionally signed decimal integer is its
    value; anything else is [NaN] (strings denoting non-integers lie
    outside the integer model of numbers). *)
Definition string_to_number (s : string) : jsnum :=
  let t := Gen.trim s in
  if String.eqb t EmptyString then Num 0
  else
    let '(sign, u) := match t with
                      | String c r => if char_is c 45 then ((-1)%Z, r)
                                      else if char_is c 43 then (1%Z, r)
                                      else (1%Z, t)
                      | EmptyString => (1%Z, t)
                      end in
    match u with
    | EmptyString => NaN
    | String _ _ =>
        let '(n, rest) := parse_digits u 0 in
        if String.eqb rest EmptyString then Num (sign * n)%Z else NaN
    end.

(** [Number(x)]. *)
Definition js_Number (x : option cell) : jsnum :=
  match x with
  | Some (CNum n) => Num n
  | Some (CStr s) => string_to_number s
  | None => NaN
  end.

Definition is_number (c : cell) : bool := match c with CNum _ => true | CStr _ => false end.
Definition is_string (c : cell) : bool := match c with CStr _ => true | CNum _ => false end.

Fixpoint find_index_from {A} (p : A -> Z -> bool) (l : list A) (i : Z) : Z :=
  match l with
  | [] => (-1)%Z
  | x :: r => if p x i then i else find_index_from p r (i + 1)
  end.

(** [Array.prototype.findIndex] with a callback [(cell, index) => ...]. *)
Definition findIndex {A} (p : A -> Z -> bool) (l : list A) : Z := find_index_from p l 0.

(** [/^\d{4}-\d{2}-\d{2}$/.test(s)]. *)
Definition dateRegex_test (s : string) : bool :=
  match list_ascii_of_string s with
  | [y1; y2; y3; y4; h1; m1; m2; h2; d1; d2] =>
      is_digit y1 && is_digit y2 && is_digit y3 && is_digit y4 && char_is h1 45
      && is_digit m1 && is_digit m2 && char_is h2 45 && is_digit d1 && is_digit d2
  | _ => false
  end.

(** A plain object used as a counter, [Record<string, number>], as the
    list of its own properties in creation order. Keys naming members of
    [Object.prototype] ([toString], [valueOf], [__proto__], ...) are not
    modelled specially. *)
Definition counter := list (string * nat).

Fixpoint counter_get (acc : counter) (k : string) : option nat :=
  match acc with
  | [] => None
  | (k', n) :: r => if String.eqb k k' then Some n else counter_get r k
  end.

Fixpoint counter_set (acc : counter) (k : string) (n : nat) : counter :=
  match acc with
  | [] => [(k, n)]
  | (k', m) :: r => if String.eqb k k' then (k', n) :: r else (k', m) :: counter_set r k n
  end.

(** [acc[k] = (acc[k] || 0) + 1]. *)
Definition bump (acc : counter) (k : string) : counter :=
  counter_set acc k (match counter_get acc k with Some n => n | None => 0 end + 1).

Fixpoint digits_value (s : string) (acc : Z) : option Z :=
  match s with
  | EmptyString => Some acc
  | String c r => if is_digit c then digits_value r (acc * 10 + Z.of_nat (nat_of_ascii c - 48))
                  else None
  end.

(** Array-index keys: canonical decimal strings of integers below
    [2^32 - 1]. *)
Definition index_key (k : string) : option Z :=
  match k with
  | String c r =>
      if char_is c 48 then (if String.eqb r EmptyString then Some 0%Z else None)
      else match digits_value k 0 with
           | Some v => if (v <? 4294967295)%Z then Some v else None
           | None => None
           end
  | EmptyString => None
  end.

Fixpoint insert_by {A} (le : A -> A -> bool) (x : A) (l : list A) : list A :=
  match l with
  | [] => [x]
  | y :: r => if le y x then y :: insert_by le x r else x :: y :: r
  end.

(** [Array.prototype.sort] (stable): each element is inserted after
    every element already placed that is not greater. *)
Definition sort_by {A} (le : A -> A -> bool) (l : list A) : list A :=
  fold_left (fun acc x => insert_by le x acc) l [].

(** [Object.entries]: array-index keys in ascending numeric order, then
    the other keys in creation order. *)
Definition entries (acc : counter) : list (string * nat) :=
  let idx := filter (fun e => match index_key (fst e) with Some _ => true | None => false end) acc in
  let other := filter (fun e => match index_key (fst e) with Some _ => false | None => true end) acc in
  sort_by (fun a b => match index_key (fst a), index_key (fst b) with
                      | Some x, Some y => (x <=? y)%Z
                      | _, _ => true
                      end) idx ++ other.

(** [a.localeCompare(b) <= 0], with the collation taken as the order of
    character codes; on [YYYY-MM] keys the two orders agree. *)
Definition locale_le (a b : string) : bool :=
  match String.compare a b with Gt => false | _ => true end.

Definition to_points (l : list (string * nat)) : list point :=
  map (fun e => mkPoint (fst e) (Num (Z.of_nat (snd e)))) l.

(** Strategy 1: the label column index, given the numeric one. *)
Definition label_index (firstRow : list cell) (numericColumnIndex : Z) : Z :=
  let stringColumnIndex :=
    findIndex (fun c i => is_string c && negb (i =? numericColumnIndex)%Z) firstRow in
  if (stringColumnIndex =? -1)%Z then
    let s := findIndex (fun _ i => negb (i =? numericColumnIndex)%Z) firstRow in
    if (s =? -1)%Z then 0%Z else s
  else stringColumnIndex.

(** Strategy 2: [data.rows.reduce(...)] counting rows per month; the
    [as string] cast is unchecked, so a non-string cell (or a missing
    one) makes [dateStr.substring] throw a [TypeError]. *)
Fixpoint count_months (rows : list (list cell)) (d : Z) (acc : counter)
  : completion counter :=
  match rows with
  | [] => Normal acc
  | row :: r =>
      match at_ row d with
      | Some (CStr dateStr) => count_months r d (bump acc (substring 0 7 dateStr))
      | Some (CNum _) => Throw "TypeError: dateStr.substring is not a function"
      | None => Throw "TypeError: Cannot read properties of undefined (reading 'substring')"
      end
  end.

(** Strategy 3: counting rows per label. *)
Definition count_labels (rows : list (list cell)) (l : Z) : counter :=
  fold_left (fun acc row => bump acc (js_String (at_ row l))) rows [].

(** The [useMemo] callback computing [chartData] from [data]. *)
Definition chartData (data : QueryResult) : completion (list point) :=
  match rows data with
  | [] => Normal []
  | firstRow :: _ =>
      let numericColumnIndex := findIndex (fun c _ => is_number c) firstRow in
      if negb (numericColumnIndex =? -1)%Z then
        let stringColumnIndex := label_index firstRow numericColumnIndex in
        Normal (map (fun row => mkPoint (js_String (at_ row stringColumnIndex))
                                        (js_Number (at_ row numericColumnIndex)))
                    (rows data))
      else
        let dateColumnIndex :=
          findIndex (fun c _ => match c with CStr s => dateRegex_test s | CNum _ => false end)
                    firstRow in
        if negb (dateColumnIndex =? -1)%Z then
          match count_months (rows data) dateColumnIndex [] with
          | Normal aggregation =>
              Normal (sort_by (fun a b => locale_le (name a) (name b))
                              (to_points (entries aggregation)))
          | Throw e => Throw e
          end
        else
          let labelColumnIndex := findIndex (fun c _ => is_string c) firstRow in
          if negb (labelColumnIndex =? -1)%Z then
            let aggregation := count_labels (rows data) labelColumnIndex in
            if (1 <? length aggregation)%nat then Normal (to_points (entries aggregation))
            else Normal []
          else Normal []
  end.

(** The number of rows a counter has counted. *)
Definition counter_total (acc : counter) : nat := list_sum (map snd acc).

(** The sum of the values of a chart series ([NaN] counted as [0]). *)
Definition points_total (pts : list point) : Z :=
  fold_right (fun p t => (match value p with Num z => z | NaN => 0 end + t)%Z) 0%Z pts.

(** The names of the properties of [Object.prototype]. Counting into a
    plain object [{}] under one of these keys does not create a fresh
    counter: [acc.__proto__] is never set by a number, and [acc.toString]
    and the like start from a function, so the count becomes a string. *)
Definition proto_keys : list string :=
  ["constructor"; "__defineGetter__"; "__defineSetter__"; "hasOwnProperty";
   "__lookupGetter__"; "__lookupSetter__"; "isPrototypeOf"; "propertyIsEnumerable";
   "toString"; "valueOf"; "__proto__"; "toLocaleString"].

Definition proto_key (k : string) : bool := existsb (String.eqb k) proto_keys.

(** No string cell of the rows, nor its first seven characters (the
    month key of strategy 2), names a property of [Object.prototype]:
    the rows on which [bump] counts as the plain object of the code does. *)
Definition no_proto_keys (rows : list (list cell)) : bool :=
  forallb (forallb (fun c => match c with
                             | CStr s => negb (proto_key s) && negb (proto_key (substring 0 7 s))
                             | CNum _ => true
                             end)) rows.

End Chart.

(* ------------------------------------------------------------------ *)
(** ** The backend client ([processQuery]) *)

Module Api.

(** A [fetch] response: [response.ok], [response.status], and what
    [response.json()] yields ([None]: the body is not JSON and the promise
    rejects with a [SyntaxError]). *)
Record response : Type := mkResponse { ok : bool; status : Z; json_body : option jvalue }.

(** [String(v)] for the values an error message is built from. It is
    exact on strings, numbers, booleans and [null]; an object is written
    as [Object.prototype.toString] writes it, which is [String]'s result
    unless the object has an own [toString] key (then [String] throws a
    [TypeError], a case this function does not represent). *)
Fixpoint js_to_string (v : jvalue) : string :=
  match v with
  | JNull => "null"
  | JBool b => if b then "true" else "false"
  | JNum n => Chart.Z_to_string n
  | JStr s => s
  | JArr l => String.concat "," (map (fun w => match w with
                                               | JNull => EmptyString
                                               | _ => js_to_string w
                                               end) l)
  | JObj _ => "[object Object]"
  end.

(** [processQuery(query)]; [fetched] is the settled outcome of the
    [fetch] call (which rejects on a network failure). *)
Definition processQuery (fetched : promise response) : promise jvalue :=
  match fetched with
  | Reject m => Reject m
  | Resolve resp =>
      if negb (ok resp) then
        let errorData := match json_body resp with
                         | Some v => v
                         | None => JObj [("detail", JStr "Failed to fetch from backend.")]
                         end in
        match get errorData "detail" with
        | TypeError => Reject "TypeError: Cannot read properties of null (reading 'detail')"
        | a => if truthy_access a
               then Reject (match a with Found v => js_to_string v | _ => EmptyString end)
               else Reject ("Server responded with status " ++ Chart.Z_to_string (status resp))
        end
      else
        match json_body resp with
        | None => Reject "SyntaxError: invalid JSON"
        | Some data =>
            match get data "error" with
            | TypeError => Reject "TypeError: Cannot read properties of null (reading 'error')"
            | a => if truthy_access a
                   then Reject (match a with Found v => js_to_string v | _ => EmptyString end)
                   else Resolve data
            end
        end
  end.

End Api.

(* ------------------------------------------------------------------ *)
(** ** The other backend calls of [constants.ts]
    ([processQueryWithBackend], [transcribeAudio]) *)

Module Backend.

Import Api.

(** [processQueryWithBackend(queryText)]; [fetched] is the settled
    outcome of the [fetch] call. On a status that is not ok, the message is
    [errorData.detail || errorData.error || errorDetail]; a body that is
    not JSON, or reading a field of [null], throws inside the [try] and
    leaves the status message. *)
Definition processQueryWithBackend (fetched : promise response) : promise jvalue :=
  match fetched with
  | Reject m => Reject m
  | Resolve resp =>
      if negb (ok resp) then
        let errorDetail := "Server responded with status " ++ Chart.Z_to_string (status resp) in
        match json_body resp with
        | None => Reject errorDetail
        | Some errorData =>
            match get errorData "detail" with
            | TypeError => Reject errorDetail
            | Found d =>
                if truthy d then Reject (js_to_string d)
                else match get errorData "error" with
                     | Found e => if truthy e then Reject (js_to_string e) else Reject errorDetail
                     | _ => Reject errorDetail
                     end
            | Undef =>
                match get errorData "error" with
                | Found e => if truthy e then Reject (js_to_string e) else Reject errorDetail
                | _ => Reject errorDetail
                end
            end
        end
      else
        match json_body resp with
        | None => Reject "SyntaxError: invalid JSON"
        | Some data => Resolve data
        end
  end.

(** Reading a property of a value that may be [undefined]: [a.k]. *)
Definition get_access (a : access) (k : string) : access :=
  match a with
  | Found v => get v k
  | Undef | TypeError => TypeError
  end.

(** A field of an object literal: [undefined] is [None]. *)
Definition read (a : access) : option jvalue :=
  match a with Found v => Some v | _ => None end.

(** [VoiceTranscriptionResult] as [transcribeAudio] builds it; [enhanced]
    is [None] when it is [undefined]. *)
Record VoiceTranscriptionResult : Type := mkVoiceTranscriptionResult {
  text : option jvalue;
  confidence : option jvalue;
  language : option jvalue;
  modelUsed : option jvalue;
  enhanced : option (option jvalue * option jvalue)
}.

(** [transcribeAudio(audioBlob, config)] from the [fetch] outcome on: the
    check of a failed status, the test
    [result.success === false || (result.success && !result.transcription)]
    and the reads of [result.transcription]. The form data and the URL
    (which do not influence the outcome) are left out. *)
Definition transcribeAudio (fetched : promise response) : promise VoiceTranscriptionResult :=
  match fetched with
  | Reject m => Reject m
  | Resolve resp =>
      if negb (ok resp) then
        let errorData := match json_body resp with
                         | Some v => v
                         | None => JObj [("detail", JStr "Failed to transcribe audio")]
                         end in
        match get errorData "detail" with
        | TypeError => Reject "TypeError: Cannot read properties of null (reading 'detail')"
        | a => if truthy_access a
               then Reject (match a with Found v => js_to_string v | _ => EmptyString end)
               else Reject ("Server responded with status " ++ Chart.Z_to_string (status resp))
        end
      else
        match json_body resp with
        | None => Reject "SyntaxError: invalid JSON"
        | Some result =>
            match get result "success" with
            | TypeError => Reject "TypeError: Cannot read properties of null (reading 'success')"
            | success =>
                let strict_false := match success with Found (JBool false) => true | _ => false end in
                if strict_false
                   || (truthy_access success && negb (truthy_access (get result "transcription")))
                then
                  match get result "error" with
                  | Found e => if truthy e then Reject (js_to_string e) else
                      match get result "message" with
                      | Found m => if truthy m then Reject (js_to_string m)
                                   else Reject "Transcription failed or no text found"
                      | _ => Reject "Transcription failed or no text found"
                      end
                  | _ =>
                      match get result "message" with
                      | Found m => if truthy m then Reject (js_to_string m)
                                   else Reject "Transcription failed or no text found"
                      | _ => Reject "Transcription failed or no text found"
                      end
                  end
                else
                  let t := get result "transcription" in
                  match get_access t "text" with
                  | TypeError =>
                      Reject (match t with
                              | Found JNull => "TypeError: Cannot read properties of null (reading 'text')"
                              | _ => "TypeError: Cannot read properties of undefined (reading 'text')"
                              end)
                  | tx =>
                      let enh := get result "enhancement" in
                      Resolve {| text := read tx;
                                 confidence := read (get_access t "confidence");
                                 language := read (get_access t "language");
                                 modelUsed := read (get_access t "model_used");
                                 enhanced :=
                                   if truthy_access enh
                                   then Some (read (get_access enh "enhanced_text"),
                                              read (get_access enh "corrections_applied"))
                                   else None |}
                  end
            end
        end
  end.

(** A JSON value that is not an object or an array: [String] of it never
    looks up a [toString] property of the value itself. *)
Definition is_primitive (v : jvalue) : bool :=
  match v with JObj _ | JArr _ => false | _ => true end.

End Backend.

(* ------------------------------------------------------------------ *)
(** ** Pagination and CSV export of the data table ([DataTable.tsx]) *)

Module Table.

Definition rowsPerPage : Z := 10.

(** [Math.ceil(data.rows.length / rowsPerPage)] for a row count [n]. *)
Definition totalPages (n : nat) : Z := ((Z.of_nat n + rowsPerPage - 1) / rowsPerPage)%Z.

(** A start or end argument of [Array.prototype.slice] resolved against
    the length [len]: negative values count from the end. *)
Definition rel_index (len i : Z) : Z :=
  if (i <? 0)%Z then Z.max (len + i) 0 else Z.min i len.

Definition js_slice {A} (l : list A) (start end_ : Z) : list A :=
  let len := Z.of_nat (length l) in
  let k := rel_index len start in
  let final := rel_index len end_ in
  firstn (Z.to_nat (final - k)) (skipn (Z.to_nat k) l).

(** [data.rows.slice((currentPage - 1) * rowsPerPage, currentPage * rowsPerPage)]. *)
Definition paginatedRows {A} (rows : list A) (currentPage : Z) : list A :=
  js_slice rows ((currentPage - 1) * rowsPerPage) (currentPage * rowsPerPage).

(** [handlePageChange(newPage)]: the next value of [currentPage]. *)
Definition handlePageChange (totalPages currentPage newPage : Z) : Z :=
  if (1 <=? newPage)%Z && (newPage <=? totalPages)%Z then newPage else currentPage.

Inductive pager_button : Type := Previous | Next.

(** A click on a pager button; a disabled button ([currentPage === 1]
    for Previous, [currentPage === totalPages] for Next) does nothing. *)
Definition click (totalPages currentPage : Z) (b : pager_button) : Z :=
  match b with
  | Previous => if (currentPage =? 1)%Z then currentPage
                else handlePageChange totalPages currentPage (currentPage - 1)
  | Next => if (currentPage =? totalPages)%Z then currentPage
            else handlePageChange totalPages currentPage (currentPage + 1)
  end.

Definition clicks (totalPages currentPage : Z) (bs : list pager_button) : Z :=
  fold_left (click totalPages) bs currentPage.

(** A mounted [DataTable]: its [data] prop and its [currentPage] state
    ([useState(1)] when mounted). A new [data] prop keeps the state: no
    effect of the component resets [currentPage]. *)
Record table : Type := mkTable { data : QueryResult; currentPage : Z }.

Inductive table_event : Type :=
| Click (b : pager_button)
| SetData (d : QueryResult).

Definition mount (d : QueryResult) : table := mkTable d 1.

Definition table_step (t : table) (e : table_event) : table :=
  match e with
  | Click b => mkTable (data t) (click (totalPages (length (rows (data t)))) (currentPage t) b)
  | SetData d => mkTable d (currentPage t)
  end.

(** [String(cell)], as [Array.prototype.join] writes a cell. *)
Definition cell_string (c : cell) : string := Chart.js_String (Some c).

(** The text of the [data:] URI built by [downloadCSV(columns, rows)],
    before [encodeURI]. *)
Definition csvContent (columns : list string) (rows : list (list cell)) : string :=
  let header := String.concat "," columns in
  let body := String.concat nl (map (fun row => String.concat "," (map cell_string row)) rows) in
  "data:text/csv;charset=utf-8," ++ header ++ nl ++ body.

(** Reading the export back: [s.split(c)] for a one-character separator. *)
Fixpoint split_on (c : ascii) (s : string) : list string :=
  match s with
  | EmptyString => [EmptyString]
  | String d r =>
      if Ascii.eqb c d then EmptyString :: split_on c r
      else match split_on c r with
           | x :: xs => String d x :: xs
           | [] => [String d EmptyString]
           end
  end.

Definition comma : ascii := ",".

Definition csv_prefix : string := "data:text/csv;charset=utf-8,".

(** The header fields and the rows of fields of an exported text. *)
Definition csv_decode (s : string) : option (list string * list (list string)) :=
  if String.prefix csv_prefix s then
    match split_on (ascii_of_nat 10) (drop (String.length csv_prefix) s) with
    | header :: lines => Some (split_on comma header, map (split_on comma) lines)
    | [] => None
    end
  else None.

(** A field the export writes without ambiguity: no comma, no line feed. *)
Definition plain_field (s : string) : bool :=
  forallb (fun ch => negb (Ascii.eqb ch comma) && negb (Ascii.eqb ch (ascii_of_nat 10)))
          (list_ascii_of_string s).

(** [s] holds no character [c]. *)
Definition no_char (c : ascii) (s : string) : Prop :=
  forall ch, In ch (list_ascii_of_string s) -> ch <> c.

End Table.

(* ------------------------------------------------------------------ *)
(** ** Messages of the chat transcript ([types.ts]) *)

Module Messages.

Inductive Sender : Type := user | ai.
Inductive MessageType : Type := text_ | sql | error_ | status_.
Inductive Status : Type := idle | listening | loading | error_status.

Definition Status_eqb (a b : Status) : bool :=
  match a, b with
  | idle, idle | listening, listening | loading, loading | error_status, error_status => true
  | _, _ => false
  end.

(** [interface Message]: the [content] and [summary] fields hold whatever
    value the code puts there ([None] is [undefined]). *)
Record Message : Type := mkMessage {
  sender : Sender;
  type_ : MessageType;
  content : option jvalue;
  summary : option jvalue
}.

Definition text_message (s : Sender) (t : MessageType) (c : string) : Message :=
  mkMessage s t (Some (JStr c)) None.

Definition is_ai_status (m : Message) : bool :=
  match type_ m, sender m with status_, ai => true | _, _ => false end.

End Messages.

(* ------------------------------------------------------------------ *)
(** ** [handleQuerySubmit] of the [App] using [processQuery]
    ([unnamed/part_008]) *)

Module AppV1.

Import Messages.

(** The state of [App]; [queryResult] is [None] for [null] (and for an
    [undefined] [response.result], which the results panel treats the
    same way). *)
Record state : Type := mkState {
  messages : list Message;
  queryResult : option jvalue;
  status : Status;
  error : option string
}.

Definition status_message : Message :=
  text_message ai status_ "Processing your request with the open-source model...".

(** The synchronous part of [handleQuerySubmit(query)], up to the call of
    [processQuery]: [None] when the guard returns early. *)
Definition submit_start (st : state) (query : string) : option state :=
  if String.eqb (Gen.trim query) EmptyString || Status_eqb (status st) loading then None
  else Some (mkState (app (messages st) [text_message user text_ query; status_message])
                     None loading None).

(** The rest of [handleQuerySubmit] once [processQuery] has settled with
    [outcome]; [messages.slice(0, -1)] drops the status message. The
    rejection text stands for [e.message]. *)
Definition submit_finish (st : state) (outcome : promise jvalue) : state :=
  match outcome with
  | Resolve response =>
      let aiSqlMessage := mkMessage ai sql (Backend.read (get response "sql"))
                                    (Backend.read (get response "summary")) in
      mkState (app (removelast (messages st)) [aiSqlMessage])
              (Backend.read (get response "result")) idle (error st)
  | Reject e =>
      mkState (app (removelast (messages st))
                 [text_message ai error_ ("I'm sorry, I encountered an error: " ++ e)])
              (queryResult st) idle
              (Some ("Failed to process your request. " ++ e))
  end.

Definition handleQuerySubmit (st : state) (query : string) (outcome : promise jvalue) : state :=
  match submit_start st query with
  | None => st
  | Some st1 => submit_finish st1 outcome
  end.

End AppV1.

(* ------------------------------------------------------------------ *)
(** ** [handleQuerySubmit] of [App.tsx], using [processQueryWithBackend] *)

Module AppV2.

Import Messages.

(** The [QueryResult] object built from a backend response; its fields
    hold whatever JSON values the code computes. *)
Record js_query_result : Type := mkJsQueryResult {
  qr_columns : jvalue;
  qr_rows : jvalue;
  qr_query : jvalue
}.

Record state : Type := mkState {
  messages : list Message;
  queryResult : option js_query_result;
  status : Status;
  error : option jvalue
}.

Definition status_message : Message := text_message ai status_ "Processing your request...".

(** [messages.filter(msg => !(msg.type === 'status' && msg.sender === 'ai'))]. *)
Definition remove_status (ms : list Message) : list Message :=
  filter (fun m => negb (is_ai_status m)) ms.

(** [ToNumber] on JSON values, objects through their string form. *)
Definition js_to_number (v : jvalue) : Chart.jsnum :=
  match v with
  | JNum n => Chart.Num n
  | JStr s => Chart.string_to_number s
  | JBool b => Chart.Num (if b then 1 else 0)
  | JNull => Chart.Num 0
  | JArr _ | JObj _ => Chart.string_to_number (Api.js_to_string v)
  end.

(** [x.length > 0] for a truthy [x]. *)
Definition length_gt0 (v : jvalue) : bool :=
  match v with
  | JArr l => (0 <? length l)%nat
  | JStr s => (0 <? String.length s)%nat
  | JObj _ => match get v "length" with
              | Found w => match js_to_number w with Chart.Num n => (0 <? n)%Z | Chart.NaN => false end
              | _ => false
              end
  | _ => false
  end.

(** [x[0]] for a truthy [x]. *)
Definition index0 (v : jvalue) : access :=
  match v with
  | JArr (x :: _) => Found x
  | JStr (String c _) => Found (JStr (String c EmptyString))
  | JObj _ => get v "0"
  | JNull => TypeError
  | _ => Undef
  end.

Fixpoint dedup_keys (seen : list string) (ks : list string) : list string :=
  match ks with
  | [] => []
  | k :: r => if existsb (String.eqb k) seen then dedup_keys seen r
              else k :: dedup_keys (k :: seen) r
  end.

(** [Object.keys(x)]; [TypeError] on [null] and [undefined]. Keys of an
    object: each once (a repeated key of the JSON text keeps its first
    position), array indices first in ascending order. *)
Definition object_keys (a : access) : option (list string) :=
  match a with
  | TypeError | Undef | Found JNull => None
  | Found (JObj fs) =>
      Some (map fst (Chart.entries (map (fun k => (k, 0%nat)) (dedup_keys [] (map fst fs)))))
  | Found (JArr l) => Some (map (fun i => Chart.Z_to_string (Z.of_nat i)) (seq 0 (length l)))
  | Found (JStr s) => Some (map (fun i => Chart.Z_to_string (Z.of_nat i)) (seq 0 (String.length s)))
  | Found _ => Some []
  end.

(** [{ columns: results.columns || (results.data && results.data.length > 0
    ? Object.keys(results.data[0]) : []), rows: results.data || [],
    query: sql }] for a truthy [results]; [None] when [Object.keys] throws.
    As [&&] binds tighter than [?:], the fallback is
    [(results.data && results.data.length > 0) ? Object.keys(...) : []]. *)
Definition newQueryResult (results sql : jvalue) : option js_query_result :=
  let dataA := get results "data" in
  let rows := match dataA with Found d => if truthy d then d else JArr [] | _ => JArr [] end in
  let fallback :=
    match dataA with
    | Found d =>
        if truthy d && length_gt0 d
        then option_map (fun ks => JArr (map JStr ks)) (object_keys (index0 d))
        else Some (JArr [])
    | _ => Some (JArr [])
    end in
  let columns :=
    match get results "columns" with
    | Found c => if truthy c then Some c else fallback
    | _ => fallback
    end in
  option_map (fun c => mkJsQueryResult c rows sql) columns.

(** [a || b] on two read values. *)
Definition js_or (a : access) (b : jvalue) : jvalue :=
  match a with Found v => if truthy v then v else b | _ => b end.

(** [handleQuerySubmit(query)] with [processQueryWithBackend] settled as
    [outcome]; the rejection text stands for [e.message]. *)
Definition handleQuerySubmit (st : state) (query : string) (outcome : promise jvalue) : state :=
  if String.eqb (Gen.trim query) EmptyString then st
  else
    let ms := app (messages st) [text_message user text_ query; status_message] in
    let fail (ms' : list Message) (e : string) :=
      mkState (app (remove_status ms') [text_message ai error_ ("I'm sorry, I encountered an error: " ++ e)])
              None idle (Some (JStr ("Failed to process your request: " ++ e))) in
    match outcome with
    | Reject e => fail ms e
    | Resolve backendResponse =>
        let ms1 := remove_status ms in
        match get backendResponse "success" with
        | TypeError => fail ms1 "TypeError: Cannot read properties of null (reading 'success')"
        | success =>
            let sqlA := get backendResponse "sql" in
            let resultsA := get backendResponse "results" in
            match success, sqlA, resultsA with
            | Found s, Found sqlv, Found results =>
                if truthy s && truthy sqlv && truthy results then
                  let summ := js_or (get backendResponse "summary")
                                (JStr ("Found " ++ Api.js_to_string
                                         (js_or (get results "row_count") (JNum 0)) ++ " results.")) in
                  let ms2 := app ms1 [mkMessage ai sql (Some sqlv) (Some summ)] in
                  match newQueryResult results sqlv with
                  | Some qr => mkState ms2 (Some qr) idle None
                  | None => fail ms2 "TypeError: Cannot convert undefined or null to object"
                  end
                else
                  let c := js_or (get backendResponse "error")
                             (js_or (get backendResponse "suggestion")
                                (JStr "Sorry, I could not process that request.")) in
                  mkState (app ms1 [mkMessage ai error_ (Some c) None]) None idle (Some c)
            | _, _, _ =>
                let c := js_or (get backendResponse "error")
                           (js_or (get backendResponse "suggestion")
                              (JStr "Sorry, I could not process that request.")) in
                mkState (app ms1 [mkMessage ai error_ (Some c) None]) None idle (Some c)
            end
        end
    end.

End AppV2.

(* ------------------------------------------------------------------ *)
(** ** Sample inputs *)

Module Samples.

Import Gen.

(** A well-formed generation payload whose [sql] field carries an escaped
    line break ([\\n] in the JSON text, a backslash and [n] once parsed). *)
Definition payload_inner : string :=
  quoted "sql" ++ ": " ++ quoted ("SELECT description" ++ backslash ++ backslash ++ "nFROM FIR")
  ++ ", " ++ quoted "summary" ++ ": " ++ quoted "Lists the description of every FIR.".

Definition sample_payload : string :=
  String "{" (payload_inner ++ String "}" EmptyString).

Definition fenced_payload : string :=
  fence ++ "json" ++ nl ++ sample_payload ++ nl ++ fence.

Definition chatty_reply : string := "Sure! Here is the SQL you asked for.".

End Samples.

(* ================================================================== *)
(** * Properties *)

Import MockDb.

Ltac split_ifs :=
  repeat match goal with
         | |- context [if ?b then _ else _] => destruct b
         end.

(** ** The mock executor *)

Lemma executeQuery_in_resolves (D : db) (sql : string) :
  exists r, executeQuery_in D sql = Resolve r /\ query r = sql.
Proof.
  unfold executeQuery_in; split_ifs; eexists; split; reflexivity.
Qed.

Lemma executeQuery_in_row_width (D : db) (sql : string) (r : QueryResult) :
  executeQuery_in D sql = Resolve r ->
  Forall (fun row => length row = length (columns r)) (rows r).
Proof.
  unfold executeQuery_in; split_ifs; intro H; injection H as <-; simpl;
    apply Forall_forall; intros row Hrow; apply in_map_iff in Hrow;
    destruct Hrow as (d & <- & _); reflexivity.
Qed.

(** C1 (counterexample): the candidate SQL [DROP TABLE FIR] is not
    rejected: [executeQuery] resolves it with a result (the default
    branch, six crime rows). *)
Lemma C1_drop_table_yields_result :
  exists r, executeQuery "DROP TABLE FIR" = Resolve r /\
            columns r = ["Crime Type"; "District"; "Total Count"] /\
            length (rows r) = 6%nat.
Proof.
  eexists; split; [reflexivity | split; reflexivity].
Qed.

(** C1 (amended): [executeQuery] performs no safety check: every SQL
    string, mutating or not, resolves to a result whose [query] field
    echoes it; no path rejects. *)
Theorem executeQuery_never_rejects (sql : string) :
  exists r, executeQuery sql = Resolve r /\ query r = sql.
Proof. apply executeQuery_in_resolves. Qed.

(** C2 (counterexample): a string with a non-trailing [;], the mutating
    keyword [DELETE] and a [--] comment is accepted by the executor. *)
Lemma C2_unsafe_sql_accepted :
  let s := "SELECT * FROM FIR; DELETE FROM FIR -- wipe" in
  includes s ";" = true /\ includes (toLowerCase s) "delete" = true /\
  includes s "--" = true /\ exists r, executeQuery s = Resolve r.
Proof.
  simpl. split; [reflexivity|]. split; [reflexivity|]. split; [reflexivity|].
  eexists; reflexivity.
Qed.

(** C2 (amended): there is no validator in front of [executeQuery]; it
    accepts every string, and which result it returns depends only on the
    case-insensitive presence of [group by], [guntur], [officer_master],
    [kumar], [fir] and [month]. *)
Theorem executeQuery_depends_only_on_probes (s1 s2 : string) :
  Forall (fun k => includes (toLowerCase s1) k = includes (toLowerCase s2) k)
    ["group by"; "guntur"; "officer_master"; "kumar"; "fir"; "month"] ->
  exists r1 r2, executeQuery s1 = Resolve r1 /\ executeQuery s2 = Resolve r2 /\
                columns r1 = columns r2 /\ rows r1 = rows r2.
Proof.
  intro H.
  repeat match goal with
         | H : Forall _ (_ :: _) |- _ => apply Forall_cons_iff in H; destruct H
         end.
  unfold executeQuery, executeQuery_in; cbv zeta.
  repeat match goal with
         | Hk : includes (toLowerCase s1) ?k = includes (toLowerCase s2) ?k |- _ =>
             rewrite Hk; clear Hk
         end.
  split_ifs; do 2 eexists; repeat split.
Qed.

Lemma executeQuery_depends_only_on_probes_witness :
  Forall (fun k => includes (toLowerCase "DROP TABLE FIR") k =
                   includes (toLowerCase "SELECT * FROM FIR") k)
    ["group by"; "guntur"; "officer_master"; "kumar"; "fir"; "month"] /\
  exists r1 r2, executeQuery "DROP TABLE FIR" = Resolve r1 /\
                executeQuery "SELECT * FROM FIR" = Resolve r2 /\
                columns r1 = columns r2 /\ rows r1 = rows r2.
Proof.
  split.
  - repeat constructor.
  - apply (executeQuery_depends_only_on_probes "DROP TABLE FIR" "SELECT * FROM FIR").
    repeat constructor.
Defined.

(** C9: in every result of [executeQuery], each row has as many cells as
    there are column names. *)
Theorem executeQuery_row_width (sql : string) (r : QueryResult) :
  executeQuery sql = Resolve r ->
  Forall (fun row => length row = length (columns r)) (rows r).
Proof. apply executeQuery_in_row_width. Qed.

Lemma executeQuery_row_width_witness :
  exists r, executeQuery "SELECT * FROM officer_master WHERE name LIKE '%Kumar%'" = Resolve r /\
            Forall (fun row => length row = length (columns r)) (rows r).
Proof.
  eexists; split; [reflexivity |].
  exact (executeQuery_row_width "SELECT * FROM officer_master WHERE name LIKE '%Kumar%'" _ eq_refl).
Defined.

(** ** The SQL generator *)

Import Gen.

Lemma string_length_app (s t : string) :
  String.length (s ++ t) = (String.length s + String.length t)%nat.
Proof. induction s; simpl; auto. Qed.

Lemma substring_0_full (s : string) : substring 0 (String.length s) s = s.
Proof. induction s; simpl; f_equal; auto. Qed.

Lemma drop_fence (rest : string) : drop 3 (fence ++ rest) = rest.
Proof.
  unfold drop. simpl. rewrite Nat.sub_0_r. apply substring_0_full.
Qed.

Lemma trim_end_last (s : string) (z : ascii) :
  is_space z = false -> trim_end (s ++ String z EmptyString) = s ++ String z EmptyString.
Proof.
  intro Hz. induction s as [| c s IH]; simpl.
  - rewrite Hz. reflexivity.
  - rewrite IH. destruct s; reflexivity.
Qed.

Lemma span_word_prefix (tag rest : string) :
  forallb is_word (list_ascii_of_string tag) = true ->
  span is_word (tag ++ nl ++ rest) = (tag, nl ++ rest).
Proof.
  intros Ht. induction tag as [| d tag IH]; simpl in *.
  - reflexivity.
  - apply andb_true_iff in Ht as [Hd Ht]. rewrite Hd, IH by exact Ht. reflexivity.
Qed.

Lemma span_stops (p : ascii -> bool) (m rest : string) (z : ascii) :
  p z = false -> exists pre, snd (span p (m ++ String z rest)) = pre ++ String z rest.
Proof.
  intro Hz. induction m as [| c m IH]; simpl.
  - rewrite Hz. exists EmptyString. reflexivity.
  - destruct (p c).
    + destruct (span p (m ++ String z rest)) as [a b] eqn:E. simpl in *. exact IH.
    + exists (String c m). reflexivity.
Qed.

Lemma closing_not_ok (m : string) (z : ascii) :
  is_space z = false -> closing_ok (m ++ String z (nl ++ fence)) = false.
Proof.
  intro Hz. unfold closing_ok.
  destruct (span_stops is_space m (nl ++ fence) z Hz) as [pre ->].
  apply String.eqb_neq. intro E. apply (f_equal String.length) in E.
  rewrite string_length_app in E. simpl in E. lia.
Qed.

Lemma lazy_group_body (m : string) (z : ascii) :
  is_space z = false ->
  lazy_group (m ++ String z (nl ++ fence)) = Some (m ++ String z EmptyString).
Proof.
  intro Hz. induction m as [| c m IH].
  - pose proof (closing_not_ok EmptyString z Hz) as H.
    cbn [String.append lazy_group] in H |- *. rewrite H. reflexivity.
  - pose proof (closing_not_ok (String c m) z Hz) as H.
    cbn [String.append lazy_group] in H |- *. rewrite H, IH. reflexivity.
Qed.

Lemma str_app_assoc (s t u : string) : (s ++ t) ++ u = s ++ (t ++ u).
Proof. induction s; simpl; f_equal; auto. Qed.

Lemma trim_nonspace_ends (a z : ascii) (mid : string) :
  is_space a = false -> is_space z = false ->
  trim (String a (mid ++ String z EmptyString)) = String a (mid ++ String z EmptyString).
Proof.
  intros Ha Hz. unfold trim. simpl trim_start. rewrite Ha.
  exact (trim_end_last (String a mid) z Hz).
Qed.

Lemma trim_fenced (X : string) : trim (fence ++ X ++ fence) = fence ++ X ++ fence.
Proof.
  set (bt := ascii_of_nat 96).
  assert (Hbt : is_space bt = false) by reflexivity.
  assert (E : fence ++ X ++ fence
              = String bt (String bt (String bt (X ++ String bt (String bt EmptyString))))
                ++ String bt EmptyString).
  { simpl. rewrite str_app_assoc. reflexivity. }
  rewrite E. unfold trim. cbn [trim_start String.append]. rewrite Hbt.
  exact (trim_end_last (String bt (String bt (String bt (X ++ String bt (String bt EmptyString)))))
                       bt Hbt).
Qed.

Lemma fenced_reply_stripped (tag mid : string) (a z : ascii) :
  forallb is_word (list_ascii_of_string tag) = true ->
  is_space a = false -> is_space z = false ->
  strip_fence (fence ++ tag ++ nl ++ String a (mid ++ String z EmptyString) ++ nl ++ fence)
  = String a (mid ++ String z EmptyString).
Proof.
  intros Ht Ha Hz.
  unfold strip_fence.
  set (B := String a (mid ++ String z EmptyString)).
  replace (fence ++ tag ++ nl ++ B ++ nl ++ fence)
    with (fence ++ (tag ++ nl ++ B ++ nl) ++ fence) by (rewrite !str_app_assoc; reflexivity).
  rewrite trim_fenced, !str_app_assoc.
  unfold fence_match.
  assert (Hs : startsWith (fence ++ tag ++ nl ++ B ++ nl ++ fence) fence = true)
    by reflexivity.
  rewrite Hs.
  rewrite drop_fence.
  rewrite (span_word_prefix tag _ Ht). cbn [snd].
  replace (snd (span is_space (nl ++ B ++ nl ++ fence)))
    with (String a (mid ++ String z (nl ++ fence))).
  2:{ subst B. cbn [span String.append nl]. 
      replace (is_space (ascii_of_nat 10)) with true by reflexivity.
      rewrite Ha. simpl snd. rewrite str_app_assoc. reflexivity. }
  pose proof (lazy_group_body (String a mid) z Hz) as HL.
  cbn [String.append] in HL. rewrite HL. cbv beta iota.
  rewrite (trim_nonspace_ends a z mid Ha Hz). reflexivity.
Qed.

Lemma head_after_replace (d : ascii) (r : string) :
  char_is d 110 = false ->
  match replace_escaped_newlines (String d r) with
  | String e _ => char_is e 110 = false
  | EmptyString => False
  end.
Proof.
  intro Hd. simpl. destruct (char_is d 92) eqn:E92.
  - destruct r as [| d' r'].
    + exact Hd.
    + destruct (char_is d' 110); [reflexivity | exact Hd].
  - exact Hd.
Qed.

Lemma eqb_char_is (c d : ascii) (n : nat) :
  Ascii.eqb c d = true -> char_is d n = char_is c n.
Proof. intro H. apply Ascii.eqb_eq in H. subst. reflexivity. Qed.

Lemma replace_leaves_no_escape (s : string) :
  includes (replace_escaped_newlines s) (backslash ++ "n") = false.
Proof.
  change (backslash ++ "n") with (String (ascii_of_nat 92) (String "n" EmptyString)).
  remember (String.length s) as n eqn:Hn.
  revert s Hn. induction n as [n IH] using lt_wf_ind. intros s Hn.
  destruct s as [| c r]; [reflexivity |].
  simpl in Hn.
  cbn [replace_escaped_newlines].
  destruct (char_is c 92) eqn:E92.
  - destruct r as [| d r'].
    + cbn [includes startsWith]. rewrite andb_false_r. reflexivity.
    + destruct (char_is d 110) eqn:E110.
      * cbn [includes startsWith].
        replace (Ascii.eqb (ascii_of_nat 92) (ascii_of_nat 10)) with false by reflexivity.
        simpl andb. simpl orb.
        apply (IH (String.length r')); [simpl in Hn; lia | reflexivity].
      * cbn [includes].
        rewrite (IH (String.length (String d r'))) by (simpl in *; lia).
        rewrite orb_false_r.
        pose proof (head_after_replace d r' E110) as Hh.
        destruct (replace_escaped_newlines (String d r')) as [| e tl]; [contradiction |].
        cbn [startsWith]. destruct (Ascii.eqb (ascii_of_nat 92) c); [| reflexivity].
        rewrite andb_true_l. destruct (Ascii.eqb "n" e) eqn:En; [| reflexivity].
        rewrite (eqb_char_is _ _ 110 En) in Hh. discriminate.
  - cbn [includes].
    rewrite (IH (String.length r)) by (simpl in *; lia).
    rewrite orb_false_r. cbn [startsWith].
    destruct (Ascii.eqb (ascii_of_nat 92) c) eqn:E; [| reflexivity].
    rewrite (eqb_char_is _ _ 92 E) in E92. discriminate.
Qed.

Lemma generate_resolved_inv (parse : string -> option jvalue) (c : chat) (q sql : string)
  (summary : jvalue) :
  fst (generateSqlAndSummary_with parse c q) = Resolve (sql, summary) ->
  exists text rest parsed raw,
    pending c = Reply text :: rest /\ parse (strip_fence text) = Some parsed /\
    get parsed "sql" = Found (JStr raw) /\ sql = replace_escaped_newlines raw.
Proof.
  unfold generateSqlAndSummary_with, sendMessage.
  destruct (pending c) as [| [text | m] rest]; simpl; try discriminate.
  unfold parse_reply.
  destruct (parse (strip_fence text)) as [parsed |] eqn:Ep; [| discriminate].
  destruct (get parsed "sql") as [| | sqlv] eqn:Es; try discriminate.
  destruct (truthy sqlv); [| discriminate].
  destruct (get parsed "summary") as [| | sv]; try discriminate.
  destruct (truthy sv); [| discriminate].
  destruct sqlv; try discriminate.
  intro H. injection H as <- <-. do 4 eexists. repeat split; eauto.
Qed.

(** C4: before parsing, the generator strips a surrounding code fence
    (a [```tag] line, the payload, a closing [```] line) down to the
    payload; and every SQL it returns is the [sql] field of the payload
    parsed from the fence-stripped reply, with each backslash-[n]
    sequence turned into a line feed, so that no backslash-[n] remains. *)
Theorem generator_strips_fence_and_normalizes_newlines :
  (forall (tag mid : string) (a z : ascii),
     forallb is_word (list_ascii_of_string tag) = true ->
     is_space a = false -> is_space z = false ->
     strip_fence (fence ++ tag ++ nl ++ String a (mid ++ String z EmptyString) ++ nl ++ fence)
     = String a (mid ++ String z EmptyString)) /\
  (forall (parse : string -> option jvalue) (c : chat) (q sql : string) (summary : jvalue),
     fst (generateSqlAndSummary_with parse c q) = Resolve (sql, summary) ->
     exists text rest parsed raw,
       pending c = Reply text :: rest /\ parse (strip_fence text) = Some parsed /\
       get parsed "sql" = Found (JStr raw) /\ sql = replace_escaped_newlines raw /\
       includes sql (backslash ++ "n") = false).
Proof.
  split.
  - exact fenced_reply_stripped.
  - intros parse c q sql summary H.
    destruct (generate_resolved_inv parse c q sql summary H)
      as (text & rest & parsed & raw & H1 & H2 & H3 & H4).
    exists text, rest, parsed, raw. repeat split; auto.
    subst sql. apply replace_leaves_no_escape.
Qed.

Lemma generator_strips_fence_and_normalizes_newlines_witness :
  (forallb is_word (list_ascii_of_string "json") = true /\
   strip_fence Samples.fenced_payload = Samples.sample_payload) /\
  (fst (generateSqlAndSummary (mkChat [Reply Samples.fenced_payload] []) "List FIRs")
   = Resolve ("SELECT description" ++ nl ++ "FROM FIR",
              JStr "Lists the description of every FIR.") /\
   exists text rest parsed raw,
     pending (mkChat [Reply Samples.fenced_payload] []) = Reply text :: rest /\
     JSON_parse (strip_fence text) = Some parsed /\
     get parsed "sql" = Found (JStr raw) /\
     "SELECT description" ++ nl ++ "FROM FIR" = replace_escaped_newlines raw /\
     includes ("SELECT description" ++ nl ++ "FROM FIR") (backslash ++ "n") = false).
Proof.
  split; split.
  - reflexivity.
  - exact (proj1 generator_strips_fence_and_normalizes_newlines "json"
             Samples.payload_inner "{"%char "}"%char eq_refl eq_refl eq_refl).
  - vm_compute. reflexivity.
  - apply (proj2 generator_strips_fence_and_normalizes_newlines JSON_parse
             (mkChat [Reply Samples.fenced_payload] []) "List FIRs" _
             (JStr "Lists the description of every FIR.")).
    vm_compute. reflexivity.
Defined.

(** C3 (counterexample): when the model's first reply is not a JSON
    payload, the generator rejects with its invalid-response error at
    once; the next reply, which would parse to a valid [sql]/[summary]
    payload, is never requested: exactly one message was sent. *)
Lemma C3_no_fallback_attempt :
  parse_reply JSON_parse (strip_fence Samples.sample_payload)
    = Resolve ("SELECT description" ++ nl ++ "FROM FIR",
               JStr "Lists the description of every FIR.") /\
  let '(res, c') := generateSqlAndSummary
                      (mkChat [Reply Samples.chatty_reply; Reply Samples.sample_payload] [])
                      "List FIRs" in
  res = Reject invalid_response /\ pending c' = [Reply Samples.sample_payload] /\
  length (sent c') = 1%nat.
Proof.
  split; vm_compute; [reflexivity | repeat split].
Qed.

(** C3 (amended): the generator makes exactly one model call (one reply
    consumed, one message sent, the prompt built from the query) and has
    no retry or fallback model; its outcome is the model failure, or the
    outcome of parsing that single reply, which either resolves with
    [sql]/[summary] or rejects with the invalid-response error. *)
Theorem generate_single_attempt (parse : string -> option jvalue) (c : chat)
  (query : string) (r : reply) (rest : list reply) :
  pending c = r :: rest ->
  pending (snd (generateSqlAndSummary_with parse c query)) = rest /\
  sent (snd (generateSqlAndSummary_with parse c query))
    = app (sent c) [SQL_GENERATION_PROMPT ++ nl ++ nl ++ "User Query: " ++ quoted query] /\
  match r with
  | ModelFailure m => fst (generateSqlAndSummary_with parse c query) = Reject m
  | Reply text =>
      fst (generateSqlAndSummary_with parse c query) = parse_reply parse (strip_fence text) /\
      (parse_reply parse (strip_fence text) = Reject invalid_response \/
       exists sql summary, parse_reply parse (strip_fence text) = Resolve (sql, summary))
  end.
Proof.
  intro Hp. unfold generateSqlAndSummary_with, sendMessage. rewrite Hp.
  destruct r as [text | m]; simpl; repeat split; auto.
  unfold parse_reply.
  destruct (parse (strip_fence text)) as [parsed |]; [| auto].
  destruct (get parsed "sql") as [| | sqlv]; auto.
  destruct (truthy sqlv); auto.
  destruct (get parsed "summary") as [| | sv]; auto.
  destruct (truthy sv); auto.
  destruct sqlv; eauto.
Qed.

Lemma generate_single_attempt_witness :
  pending (mkChat [Reply Samples.chatty_reply; Reply Samples.sample_payload] [])
    = Reply Samples.chatty_reply :: [Reply Samples.sample_payload] /\
  pending (snd (generateSqlAndSummary
                  (mkChat [Reply Samples.chatty_reply; Reply Samples.sample_payload] [])
                  "List FIRs")) = [Reply Samples.sample_payload] /\
  sent (snd (generateSqlAndSummary
               (mkChat [Reply Samples.chatty_reply; Reply Samples.sample_payload] [])
               "List FIRs"))
    = app [] [SQL_GENERATION_PROMPT ++ nl ++ nl ++ "User Query: " ++ quoted "List FIRs"] /\
  (fst (generateSqlAndSummary
          (mkChat [Reply Samples.chatty_reply; Reply Samples.sample_payload] []) "List FIRs")
     = parse_reply JSON_parse (strip_fence Samples.chatty_reply) /\
   (parse_reply JSON_parse (strip_fence Samples.chatty_reply) = Reject invalid_response \/
    exists sql summary,
      parse_reply JSON_parse (strip_fence Samples.chatty_reply) = Resolve (sql, summary))).
Proof.
  split; [reflexivity |].
  exact (generate_single_attempt JSON_parse
           (mkChat [Reply Samples.chatty_reply; Reply Samples.sample_payload] [])
           "List FIRs" (Reply Samples.chatty_reply) [Reply Samples.sample_payload] eq_refl).
Defined.

(** ** Chart shaping *)

Import Chart.

Lemma find_index_from_none {A} (p : A -> Z -> bool) (l : list A) (i : Z) :
  find_index_from p l i = (-1)%Z -> (0 <= i)%Z ->
  forall k x, nth_error l k = Some x -> p x (i + Z.of_nat k)%Z = false.
Proof.
  revert i. induction l as [| y l IH]; intros i H Hi k x Hk.
  - destruct k; discriminate.
  - simpl in H. destruct (p y i) eqn:Ey; [lia |].
    destruct k as [| k]; simpl in Hk.
    + injection Hk as <-. rewrite Z.add_0_r. exact Ey.
    + replace (i + Z.of_nat (S k))%Z with ((i + 1) + Z.of_nat k)%Z by lia.
      apply (IH (i + 1)%Z H); [lia | exact Hk].
Qed.

Lemma find_index_from_some {A} (p : A -> Z -> bool) (l : list A) (i : Z) :
  find_index_from p l i <> (-1)%Z -> (0 <= i)%Z ->
  exists k x, find_index_from p l i = (i + Z.of_nat k)%Z /\ nth_error l k = Some x /\
              p x (i + Z.of_nat k)%Z = true /\
              forall k' y, (k' < k)%nat -> nth_error l k' = Some y ->
                           p y (i + Z.of_nat k')%Z = false.
Proof.
  revert i. induction l as [| y l IH]; intros i H Hi; simpl in H.
  - contradiction.
  - destruct (p y i) eqn:Ey.
    + exists O, y. simpl. rewrite Ey, Z.add_0_r. repeat split; auto. intros; lia.
    + destruct (IH (i + 1)%Z H ltac:(lia)) as (k & x & E & Hk & Hp & Hmin).
      exists (S k), x.
      replace (i + Z.of_nat (S k))%Z with ((i + 1) + Z.of_nat k)%Z by lia.
      cbn [find_index_from nth_error]. rewrite Ey.
      split; [exact E |]. split; [exact Hk |]. split; [exact Hp |].
      intros [| k'] z Hlt Hz; simpl in Hz.
      * injection Hz as <-. rewrite Z.add_0_r. exact Ey.
      * replace (i + Z.of_nat (S k'))%Z with ((i + 1) + Z.of_nat k')%Z by lia.
        apply (Hmin k' z); [lia | exact Hz].
Qed.

Lemma at_of_nat (row : list cell) (k : nat) : at_ row (Z.of_nat k) = nth_error row k.
Proof. unfold at_. destruct (Z.ltb_spec (Z.of_nat k) 0); [lia |]. now rewrite Nat2Z.id. Qed.

Lemma at_some_nonneg (row : list cell) (j : Z) (x : cell) :
  at_ row j = Some x -> (0 <= j)%Z /\ nth_error row (Z.to_nat j) = Some x.
Proof.
  unfold at_. destruct (Z.ltb_spec j 0); [discriminate |]. auto.
Qed.

Lemma nth_error_before {A} (l : list A) (k k' : nat) (x : A) :
  nth_error l k = Some x -> (k' < k)%nat -> exists y, nth_error l k' = Some y.
Proof.
  intros Hk Hlt. destruct (nth_error l k') eqn:E; [eauto |].
  apply nth_error_None in E. assert (k < length l)%nat by (apply nth_error_Some; congruence).
  lia.
Qed.

(** With a string cell in the first row other than the value column, the
    label column is the first such one. *)
Lemma label_index_string (firstRow : list cell) (v : Z) :
  (exists j s, j <> v /\ at_ firstRow j = Some (CStr s)) ->
  label_index firstRow v <> v /\
  (exists s, at_ firstRow (label_index firstRow v) = Some (CStr s)) /\
  forall j, (0 <= j < label_index firstRow v)%Z -> j <> v ->
            exists n, at_ firstRow j = Some (CNum n).
Proof.
  intros (j & s & Hjv & Hj).
  apply at_some_nonneg in Hj as [Hj0 Hj].
  unfold label_index, findIndex.
  set (p := fun (c : cell) (i : Z) => is_string c && negb (i =? v)%Z).
  destruct (Z.eqb_spec (find_index_from p firstRow 0) (-1)) as [E | E].
  - exfalso. pose proof (find_index_from_none p firstRow 0 E ltac:(lia) _ _ Hj) as H.
    subst p. simpl in H. rewrite Z2Nat.id in H by lia.
    destruct (Z.eqb_spec j v); [contradiction | discriminate].
  - destruct (find_index_from_some p firstRow 0 E ltac:(lia)) as (k & x & Ek & Hk & Hp & Hmin).
    rewrite Ek. simpl Z.add. subst p. simpl in Hp.
    apply andb_true_iff in Hp as [Hs Hv].
    destruct (Z.eqb_spec (Z.of_nat k) v); [discriminate |].
    repeat split; auto.
    + destruct x as [s' | m]; [| discriminate]. exists s'. rewrite at_of_nat. exact Hk.
    + intros j' Hj' Hj'v.
      destruct (nth_error_before firstRow k (Z.to_nat j') x Hk ltac:(lia)) as [y Hy].
      pose proof (Hmin (Z.to_nat j') y ltac:(lia) Hy) as Hf. simpl in Hf.
      rewrite Z2Nat.id in Hf by lia.
      destruct (Z.eqb_spec j' v); [contradiction |].
      rewrite andb_true_r in Hf.
      destruct y as [s' | m]; [discriminate |]. exists m.
      rewrite <- (Z2Nat.id j') by lia. rewrite at_of_nat. exact Hy.
Qed.

Lemma find_string_none (r : list cell) (q : Z -> bool) (i : Z) :
  Forall (fun c => is_number c = true) r ->
  find_index_from (fun c k => is_string c && q k) r i = (-1)%Z.
Proof.
  revert i. induction r as [| c r IH]; intros i H; [reflexivity |].
  inversion H as [| ? ? Hc Hr]; subst. simpl.
  destruct c; [discriminate |]. simpl. apply IH, Hr.
Qed.

(** Without any string cell in the first row, every cell is a number and
    the value column is [0]; the label column is then [1], or [0] for a
    single-cell row. *)
Lemma label_index_all_numbers (firstRow : list cell) :
  Forall (fun c => is_number c = true) firstRow ->
  label_index firstRow 0 = if (1 <? length firstRow)%nat then 1%Z else 0%Z.
Proof.
  intro H. unfold label_index, findIndex.
  destruct firstRow as [| c0 [| c1 r]]; simpl; [reflexivity | |].
  - inversion H as [| ? ? H0 _]; subst. destruct c0; [discriminate |]. reflexivity.
  - inversion H as [| ? ? H0 H1]; subst. inversion H1 as [| ? ? H2 H3]; subst.
    destruct c0; [discriminate |]. destruct c1; [discriminate |]. simpl.
    rewrite (find_string_none r (fun i => negb (i =? 0)%Z) 2 H3). reflexivity.
Qed.

(** The first row of a result whose first cell is the value of the first
    numeric column: every earlier cell is a string. *)
Lemma first_numeric_column (firstRow : list cell) (v : Z) :
  findIndex (fun c _ => is_number c) firstRow = v -> v <> (-1)%Z ->
  (exists n, at_ firstRow v = Some (CNum n)) /\
  (forall j, (0 <= j < v)%Z -> exists s, at_ firstRow j = Some (CStr s)).
Proof.
  intros Hv Hneq. unfold findIndex in Hv. subst v.
  destruct (find_index_from_some (fun c _ => is_number c) firstRow 0 Hneq ltac:(lia))
    as (k & x & Ek & Hk & Hp & Hmin).
  rewrite Ek. simpl Z.add. split.
  - destruct x as [s | n]; [discriminate |]. exists n. rewrite at_of_nat. exact Hk.
  - intros j Hj.
    destruct (nth_error_before firstRow k (Z.to_nat j) x Hk ltac:(lia)) as [y Hy].
    pose proof (Hmin (Z.to_nat j) y ltac:(lia) Hy) as Hf.
    destruct y as [s | n]; [| discriminate]. exists s.
    rewrite <- (Z2Nat.id j) by lia. rewrite at_of_nat. exact Hy.
Qed.

(** C5 (counterexample): in the fallback of strategy 1 the label column
    is numeric. The single row [(1, 2)] has only numeric cells; the value
    column is [0], the label column is [1], and the chart point is named
    after the number [2]. *)
Lemma C5_label_column_may_be_numeric :
  let d := mkQueryResult ["district_id"; "count"] [[CNum 1; CNum 2]] "" in
  findIndex (fun c _ => is_number c) [CNum 1; CNum 2] = 0%Z /\
  label_index [CNum 1; CNum 2] 0 = 1%Z /\
  at_ [CNum 1; CNum 2] 1 = Some (CNum 2) /\
  chartData d = Normal [mkPoint "2" (Num 1)].
Proof. vm_compute. repeat split. Qed.

(** C5 (amended): when the first row has a numeric cell, the value column
    [v] is the first numeric column of the first row (all cells before it
    are strings), and the chart maps every row to the point named after
    its cell in column [label_index firstRow v] with the value of its
    cell in column [v]. When the first row has a string cell outside [v],
    the label column is the first such string column; when the first row
    has no string cell at all, [v] is [0] and the label column is the
    numeric column [1] (or [0] for a one-cell row). *)
Theorem chartData_categorical (data : QueryResult) (firstRow : list cell)
  (rest : list (list cell)) (v : Z) :
  rows data = firstRow :: rest ->
  findIndex (fun c _ => is_number c) firstRow = v -> v <> (-1)%Z ->
  chartData data =
    Normal (map (fun row => mkPoint (js_String (at_ row (label_index firstRow v)))
                                    (js_Number (at_ row v))) (rows data)) /\
  (exists n, at_ firstRow v = Some (CNum n)) /\
  (forall j, (0 <= j < v)%Z -> exists s, at_ firstRow j = Some (CStr s)) /\
  ((exists j s, j <> v /\ at_ firstRow j = Some (CStr s)) ->
     label_index firstRow v <> v /\
     (exists s, at_ firstRow (label_index firstRow v) = Some (CStr s)) /\
     (forall j, (0 <= j < label_index firstRow v)%Z -> j <> v ->
                exists n, at_ firstRow j = Some (CNum n))) /\
  (Forall (fun c => is_number c = true) firstRow ->
     v = 0%Z /\
     label_index firstRow v = if (1 <? length firstRow)%nat then 1%Z else 0%Z).
Proof.
  intros Hrows Hv Hneq.
  pose proof (first_numeric_column firstRow v Hv Hneq) as [Hnum Hbefore].
  split; [| split; [exact Hnum | split; [exact Hbefore | split]]].
  - unfold chartData. rewrite Hrows. rewrite Hv.
    destruct (Z.eqb_spec v (-1)); [contradiction |]. reflexivity.
  - apply label_index_string.
  - intro Hall.
    assert (v = 0%Z) as ->.
    { destruct Hnum as [n Hn]. apply at_some_nonneg in Hn as [H0 Hn].
      destruct (Z.eq_dec v 0) as [| Hne]; [assumption |].
      destruct (Hbefore 0%Z ltac:(lia)) as [s Hs].
      apply at_some_nonneg in Hs as [_ Hs]. simpl in Hs.
      destruct firstRow as [| c r]; [discriminate |]. simpl in Hs. injection Hs as ->.
      inversion Hall as [| ? ? Hc _]. discriminate. }
    split; [reflexivity | apply label_index_all_numbers, Hall].
Qed.

Lemma chartData_categorical_witness :
  let firstRow := [CStr "Theft"; CNum 120] in
  let d := mkQueryResult ["crime_type"; "count"] [firstRow; [CStr "Assault"; CNum 45]] "" in
  findIndex (fun c _ => is_number c) firstRow = 1%Z /\
  label_index firstRow 1 = 0%Z /\
  chartData d = Normal [mkPoint "Theft" (Num 120); mkPoint "Assault" (Num 45)] /\
  (chartData d =
    Normal (map (fun row => mkPoint (js_String (at_ row (label_index firstRow 1)))
                                    (js_Number (at_ row 1))) (rows d)) /\
  (exists n, at_ firstRow 1 = Some (CNum n)) /\
  (forall j, (0 <= j < 1)%Z -> exists s, at_ firstRow j = Some (CStr s)) /\
  ((exists j s, j <> 1%Z /\ at_ firstRow j = Some (CStr s)) ->
     label_index firstRow 1 <> 1%Z /\
     (exists s, at_ firstRow (label_index firstRow 1) = Some (CStr s)) /\
     (forall j, (0 <= j < label_index firstRow 1)%Z -> j <> 1%Z ->
                exists n, at_ firstRow j = Some (CNum n))) /\
  (Forall (fun c => is_number c = true) firstRow ->
     1%Z = 0%Z /\
     label_index firstRow 1 = if (1 <? length firstRow)%nat then 1%Z else 0%Z)).
Proof.
  intros firstRow d.
  split; [reflexivity |]. split; [reflexivity |]. split; [vm_compute; reflexivity |].
  exact (chartData_categorical d firstRow [[CStr "Assault"; CNum 45]] 1
           eq_refl eq_refl ltac:(discriminate)).
Defined.

(** C6: strategy 2 casts the date column's cells to strings without a
    check. A date in the first row followed by a row whose cell in that
    column is a number makes [dateStr.substring] throw a [TypeError]
    instead of counting the rows per month. *)
Theorem chartData_date_column_throws :
  let d := mkQueryResult ["arrest_date"] [[CStr "2025-05-15"]; [CNum 42]] "" in
  findIndex (fun c _ => is_number c) (hd [] (rows d)) = (-1)%Z /\
  findIndex (fun c _ => match c with CStr s => dateRegex_test s | CNum _ => false end)
            (hd [] (rows d)) = 0%Z /\
  chartData d = Throw "TypeError: dateStr.substring is not a function".
Proof. vm_compute. repeat split. Qed.

(** C7: [chartData] is a function of the rows of the result alone: two
    results with the same rows (whatever their columns and query) give
    the same outcome. *)
Theorem chartData_depends_only_on_rows (d1 d2 : QueryResult) :
  rows d1 = rows d2 -> chartData d1 = chartData d2.
Proof. intro H. unfold chartData. rewrite H. reflexivity. Qed.

Lemma chartData_depends_only_on_rows_witness :
  let rs := [[CStr "Theft"; CNum 120]; [CStr "Assault"; CNum 45]] in
  rows (mkQueryResult ["crime_type"; "count"] rs "SELECT 1") =
    rows (mkQueryResult ["Crime Type"; "Total FIRs"] rs "SELECT 2") /\
  chartData (mkQueryResult ["crime_type"; "count"] rs "SELECT 1") =
    chartData (mkQueryResult ["Crime Type"; "Total FIRs"] rs "SELECT 2").
Proof.
  intro rs. split; [reflexivity |].
  exact (chartData_depends_only_on_rows
           (mkQueryResult ["crime_type"; "count"] rs "SELECT 1")
           (mkQueryResult ["Crime Type"; "Total FIRs"] rs "SELECT 2") eq_refl).
Defined.

Import Api.

(** C10 (counterexample): an ok response whose payload has an empty
    array in its [error] field is rejected, since [if (data.error)] tests
    truthiness and every array is truthy. *)
Lemma C10_empty_error_array_rejects :
  processQuery (Resolve (mkResponse true 200 (Some (JObj [("error", JArr [])])))) =
    Reject "".
Proof. vm_compute. reflexivity. Qed.

(** C10 (amended): [processQuery] resolves exactly when the fetch
    succeeds, the status is ok, the body is JSON other than [null], and
    the [error] field of the payload is absent or falsy ([false], [0],
    the empty string or [null]); it then resolves with the payload
    unchanged. In every other case it rejects: a failed fetch, a status
    that is not ok, a body that is not JSON or is [null], or a truthy
    [error] field (a non-empty string, a nonzero number, [true], any
    array or object). *)
Theorem processQuery_resolves_iff (fetched : promise response) (v : jvalue) :
  processQuery fetched = Resolve v <->
  exists resp, fetched = Resolve resp /\ ok resp = true /\ json_body resp = Some v /\
               v <> JNull /\ truthy_access (get v "error") = false.
Proof.
  split.
  - destruct fetched as [resp | m]; simpl; [| discriminate].
    destruct (ok resp) eqn:Eok; simpl.
    + destruct (json_body resp) as [data |] eqn:Eb; [| discriminate].
      destruct (get data "error") as [| | w] eqn:Eg.
      * discriminate.
      * intro H. injection H as <-. exists resp. repeat split; auto.
        -- intro. subst. discriminate.
        -- rewrite Eg. reflexivity.
      * destruct (truthy w) eqn:Et; simpl; [discriminate |].
        intro H. injection H as <-. exists resp. repeat split; auto.
        -- intro. subst. discriminate.
        -- rewrite Eg. simpl. exact Et.
    + destruct (get _ "detail") as [| | w]; [discriminate | discriminate |].
      simpl. destruct (truthy w); discriminate.
  - intros (resp & -> & Eok & Eb & Hnull & Ht). simpl. rewrite Eok, Eb. simpl.
    destruct (get v "error") as [| | w] eqn:Eg.
    + destruct v; try discriminate; [contradiction |]. simpl in Eg.
      destruct (lookup_last "error" _); discriminate.
    + reflexivity.
    + simpl in Ht. rewrite Ht. reflexivity.
Qed.

(* ------------------------------------------------------------------ *)
(** ** Further properties of the services *)

Ltac destruct_goal_match :=
  match goal with
  | |- context [match ?x with _ => _ end] => destruct x
  end.

Lemma lower_char_idem (c : ascii) : lower_char (lower_char c) = lower_char c.
Proof. destruct c as [[] [] [] [] [] [] [] []]; reflexivity. Qed.

Lemma toLowerCase_idem (s : string) : toLowerCase (toLowerCase s) = toLowerCase s.
Proof. induction s as [| c s IH]; simpl; [reflexivity |]. rewrite lower_char_idem, IH. reflexivity. Qed.

(** [executeQuery] matches its probe words without regard to case: the
    SQL and its lower-cased form give the same columns and rows. *)
Theorem executeQuery_case_insensitive (sql : string) :
  match executeQuery sql, executeQuery (toLowerCase sql) with
  | Resolve r1, Resolve r2 => columns r1 = columns r2 /\ rows r1 = rows r2
  | _, _ => False
  end.
Proof.
  unfold executeQuery, executeQuery_in. cbv zeta. rewrite toLowerCase_idem.
  split_ifs; split; reflexivity.
Qed.

Import Backend.

(** [processQueryWithBackend] resolves exactly when the fetch succeeds,
    the status is ok and the body is JSON, and then with the parsed
    payload unchanged: unlike [processQuery] it never inspects an [error]
    field, nor rejects a [null] payload. *)
Theorem processQueryWithBackend_resolves_iff (fetched : promise response) (v : jvalue) :
  processQueryWithBackend fetched = Resolve v <->
  exists resp, fetched = Resolve resp /\ ok resp = true /\ json_body resp = Some v.
Proof.
  split.
  - destruct fetched as [resp | m]; simpl; [| discriminate].
    destruct (ok resp) eqn:Eok; simpl.
    + destruct (json_body resp) as [data |] eqn:Eb; [| discriminate].
      intro H. injection H as <-. eauto.
    + destruct (json_body resp) as [ed |]; [| discriminate].
      destruct (get ed "detail") as [| | d]; [discriminate | |].
      * destruct (get ed "error") as [| | e]; try discriminate.
        destruct (truthy e); discriminate.
      * destruct (truthy d); [discriminate |].
        destruct (get ed "error") as [| | e]; try discriminate.
        destruct (truthy e); discriminate.
  - intros (resp & -> & Eok & Eb). simpl. rewrite Eok, Eb. reflexivity.
Qed.

(** On a status that is not ok, [processQueryWithBackend] rejects with the
    payload's [detail] if it is truthy, otherwise with its [error] if that
    is truthy, otherwise (and for a body that is not JSON, or [null]) with
    ["Server responded with status N"]. The message is the string form of
    the field when it is a string, number or boolean (an object or array
    field goes through [String], which an own [toString] key of the JSON
    makes throw). *)
Theorem processQueryWithBackend_error_detail (resp : response) :
  ok resp = false ->
  let errorDetail := "Server responded with status " ++ Chart.Z_to_string (status resp) in
  (json_body resp = None -> processQueryWithBackend (Resolve resp) = Reject errorDetail) /\
  (forall v d, json_body resp = Some v -> get v "detail" = Found d -> truthy d = true ->
     is_primitive d = true ->
     processQueryWithBackend (Resolve resp) = Reject (js_to_string d)) /\
  (forall v e, json_body resp = Some v -> truthy_access (get v "detail") = false ->
     get v "error" = Found e -> truthy e = true -> is_primitive e = true ->
     processQueryWithBackend (Resolve resp) = Reject (js_to_string e)) /\
  (forall v, json_body resp = Some v -> truthy_access (get v "detail") = false ->
     truthy_access (get v "error") = false ->
     processQueryWithBackend (Resolve resp) = Reject errorDetail).
Proof.
  intros Eok errorDetail. simpl. rewrite Eok. simpl.
  repeat split.
  - intro Eb. rewrite Eb. reflexivity.
  - intros v d Eb Ed Ht _. rewrite Eb, Ed, Ht. reflexivity.
  - intros v e Eb Hd Ee Ht _. rewrite Eb, Ee.
    destruct (get v "detail") as [| | d] eqn:Ed; simpl in Hd.
    + destruct v; simpl in Ed, Ee; try discriminate.
      destruct (lookup_last "detail" _); discriminate.
    + rewrite Ht. reflexivity.
    + rewrite Hd, Ht. reflexivity.
  - intros v Eb Hd He. rewrite Eb.
    destruct (get v "detail") as [| | d]; simpl in Hd; try rewrite Hd; [reflexivity | |];
      destruct (get v "error") as [| | e]; simpl in He; try rewrite He; reflexivity.
Qed.

Lemma processQueryWithBackend_error_detail_witness :
  let resp := mkResponse false 404 (Some (JObj [("detail", JStr ""); ("error", JStr "no such table")])) in
  ok resp = false /\
  processQueryWithBackend (Resolve resp) = Reject "no such table" /\
  (let errorDetail := "Server responded with status " ++ Chart.Z_to_string (status resp) in
  (json_body resp = None -> processQueryWithBackend (Resolve resp) = Reject errorDetail) /\
  (forall v d, json_body resp = Some v -> get v "detail" = Found d -> truthy d = true ->
     is_primitive d = true ->
     processQueryWithBackend (Resolve resp) = Reject (js_to_string d)) /\
  (forall v e, json_body resp = Some v -> truthy_access (get v "detail") = false ->
     get v "error" = Found e -> truthy e = true -> is_primitive e = true ->
     processQueryWithBackend (Resolve resp) = Reject (js_to_string e)) /\
  (forall v, json_body resp = Some v -> truthy_access (get v "detail") = false ->
     truthy_access (get v "error") = false ->
     processQueryWithBackend (Resolve resp) = Reject errorDetail)).
Proof.
  intro resp. split; [reflexivity |]. split; [vm_compute; reflexivity |].
  exact (processQueryWithBackend_error_detail resp eq_refl).
Defined.

Ltac destruct_hyp_match H :=
  match type of H with
  | context [match ?x with _ => _ end] => destruct x eqn:?
  end.

Lemma get_TypeError (v : jvalue) (k : string) : get v k = TypeError -> v = JNull.
Proof.
  destruct v; simpl; try discriminate; [reflexivity |].
  destruct (lookup_last k _); discriminate.
Qed.

(** [transcribeAudio] resolves exactly when the status is ok and the
    body is a JSON value other than [null] whose [success] field is not
    [false] and whose [transcription] field is present and not [null]
    (and truthy, when [success] is truthy). A missing [success] flag is
    not checked: such a payload resolves as soon as it has a
    [transcription]. *)
Theorem transcribeAudio_resolves_iff (resp : response) :
  (exists r, transcribeAudio (Resolve resp) = Resolve r) <->
  ok resp = true /\
  exists v t, json_body resp = Some v /\ v <> JNull /\
    get v "success" <> Found (JBool false) /\
    get v "transcription" = Found t /\ t <> JNull /\
    (truthy_access (get v "success") = true -> truthy t = true).
Proof.
  split.
  - intros [r H]. unfold transcribeAudio in H.
    destruct (ok resp) eqn:Eok; simpl in H.
    2: { destruct (json_body resp) as [ed |]; simpl in H; [| discriminate].
         repeat (destruct_hyp_match H; try discriminate). }
    destruct (json_body resp) as [v |] eqn:Eb; [| discriminate].
    split; [reflexivity |]. 
    assert (Hv : v <> JNull) by (intro; subst; discriminate).
    destruct (get v "success") as [| | s] eqn:Es; [discriminate | |].
    + destruct (get v "transcription") as [| | t] eqn:Et; simpl in H; try discriminate.
      exists v, t. rewrite Es. repeat split; auto; try congruence.
      * intro; subst. discriminate.
      * simpl. discriminate.
    + destruct (match s with JBool false => true | _ => false end
                || truthy s && negb (truthy_access (get v "transcription"))) eqn:Ec.
      { repeat (destruct_hyp_match H; try discriminate). }
      apply orb_false_iff in Ec as [Ef Ec].
      destruct (get v "transcription") as [| | t] eqn:Et; simpl in H; try discriminate.
      exists v, t. rewrite Es. repeat split; auto.
      * intro Heq. injection Heq as ->. discriminate.
      * intro; subst. discriminate.
      * simpl. intro Hs. rewrite Hs in Ec. simpl in Ec. destruct (truthy t); [reflexivity | discriminate].
  - intros [Eok (v & t & Eb & Hv & Hs & Et & Ht & Htr)]. unfold transcribeAudio.
    rewrite Eok, Eb. simpl.
    destruct (get v "success") as [| | s] eqn:Es.
    + apply get_TypeError in Es. contradiction.
    + rewrite Et. simpl. destruct (get t "text") eqn:Htx.
      * apply get_TypeError in Htx. contradiction.
      * eexists; reflexivity.
      * eexists; reflexivity.
    + assert (Ef : match s with JBool false => true | _ => false end = false).
      { destruct s as [| [] | | | |]; try reflexivity. contradiction. }
      assert (Ec : truthy s && negb (truthy_access (Found t)) = false).
      { simpl. simpl in Htr. destruct (truthy s); [rewrite (Htr eq_refl) |]; reflexivity. }
      rewrite Et. rewrite Ef, Ec. simpl. destruct (get t "text") eqn:Htx.
      * apply get_TypeError in Htx. contradiction.
      * eexists; reflexivity.
      * eexists; reflexivity.
Qed.

(** A payload of the flat shape [{text, confidence, language, model_used}]
    (no [success] and no [transcription] field), the shape the comments in
    [transcribeAudio] give for the backend mock, is rejected with a
    [TypeError], since the code reads [result.transcription.text]. *)
Theorem transcribeAudio_flat_payload_TypeError (resp : response)
  (fs : list (string * jvalue)) :
  ok resp = true -> json_body resp = Some (JObj fs) ->
  lookup_last "success" fs = None -> lookup_last "transcription" fs = None ->
  transcribeAudio (Resolve resp) =
    Reject "TypeError: Cannot read properties of undefined (reading 'text')".
Proof.
  intros Eok Eb Hs Ht. unfold transcribeAudio. rewrite Eok, Eb. simpl.
  rewrite Hs. simpl. rewrite Ht. reflexivity.
Qed.

Lemma transcribeAudio_flat_payload_TypeError_witness :
  let fs := [("text", JStr "namaste"); ("confidence", JNum 1);
             ("language", JStr "te"); ("model_used", JStr "whisper")] in
  transcribeAudio (Resolve (mkResponse true 200 (Some (JObj fs)))) =
    Reject "TypeError: Cannot read properties of undefined (reading 'text')".
Proof.
  intro fs.
  exact (transcribeAudio_flat_payload_TypeError (mkResponse true 200 (Some (JObj fs))) fs
           eq_refl eq_refl eq_refl eq_refl).
Defined.

(** The submit handler of the [App] of [unnamed/part_008]: a blank query,
    or a submission while a request is loading, changes nothing. Any other
    submission ends with status idle and the transcript extended by
    exactly the user's message and one AI message: the SQL message built
    from the payload when the request resolves (the error banner stays
    cleared and the result panel gets [response.result]), or the apology
    carrying the error message when it rejects (the banner shows the
    message and the result panel is cleared). *)
Theorem AppV1_handleQuerySubmit_transcript (st : AppV1.state) (query : string)
  (outcome : promise jvalue) :
  let st' := AppV1.handleQuerySubmit st query outcome in
  ((String.eqb (Gen.trim query) EmptyString = true \/ AppV1.status st = Messages.loading) ->
     st' = st) /\
  (String.eqb (Gen.trim query) EmptyString = false -> AppV1.status st <> Messages.loading ->
     AppV1.status st' = Messages.idle /\
     match outcome with
     | Resolve response =>
         AppV1.messages st' =
           app (AppV1.messages st)
             [Messages.text_message Messages.user Messages.text_ query;
              Messages.mkMessage Messages.ai Messages.sql (read (get response "sql"))
                                 (read (get response "summary"))] /\
         AppV1.error st' = None /\
         AppV1.queryResult st' = read (get response "result")
     | Reject e =>
         AppV1.messages st' =
           app (AppV1.messages st)
             [Messages.text_message Messages.user Messages.text_ query;
              Messages.text_message Messages.ai Messages.error_
                ("I'm sorry, I encountered an error: " ++ e)] /\
         AppV1.error st' = Some ("Failed to process your request. " ++ e) /\
         AppV1.queryResult st' = None
     end).
Proof.
  intro st'. subst st'. unfold AppV1.handleQuerySubmit, AppV1.submit_start.
  split.
  - intros [H | H]; [rewrite H; reflexivity |].
    rewrite H. simpl. rewrite orb_true_r. reflexivity.
  - intros H1 H2. rewrite H1. simpl.
    assert (Hs : Messages.Status_eqb (AppV1.status st) Messages.loading = false)
      by (destruct (AppV1.status st); simpl; congruence).
    rewrite Hs. simpl.
    destruct outcome as [response | e]; simpl;
      (split; [reflexivity |]);
      rewrite removelast_app by discriminate; simpl; rewrite <- app_assoc;
      repeat split.
Qed.

Lemma AppV1_handleQuerySubmit_transcript_witness :
  let st := AppV1.mkState [] None Messages.idle None in
  let st' := AppV1.handleQuerySubmit st "Show FIRs in Guntur"
               (Reject "Server responded with status 500") in
  AppV1.status st' = Messages.idle /\
  AppV1.messages st' =
    app (AppV1.messages st)
      [Messages.text_message Messages.user Messages.text_ "Show FIRs in Guntur";
       Messages.text_message Messages.ai Messages.error_
         ("I'm sorry, I encountered an error: " ++ "Server responded with status 500")] /\
  AppV1.error st' = Some ("Failed to process your request. " ++ "Server responded with status 500") /\
  AppV1.queryResult st' = None.
Proof.
  intros st st'.
  exact (proj2 (AppV1_handleQuerySubmit_transcript st "Show FIRs in Guntur"
                  (Reject "Server responded with status 500")) eq_refl ltac:(discriminate)).
Defined.

(** [App] with [processQuery] (of [unnamed/part_005]) behind it: an ok
    response whose payload has a non-empty string [error] field ends the
    submission with the apology carrying that text, the banner
    ["Failed to process your request. " ++ error] and an empty result
    panel. *)
Theorem AppV1_shows_backend_error (st : AppV1.state) (query : string) (resp : response)
  (fs : list (string * jvalue)) (e : string) :
  String.eqb (Gen.trim query) EmptyString = false -> AppV1.status st <> Messages.loading ->
  ok resp = true -> json_body resp = Some (JObj fs) ->
  lookup_last "error" fs = Some (JStr e) -> e <> EmptyString ->
  let st' := AppV1.handleQuerySubmit st query (processQuery (Resolve resp)) in
  AppV1.messages st' =
    app (AppV1.messages st)
      [Messages.text_message Messages.user Messages.text_ query;
       Messages.text_message Messages.ai Messages.error_
         ("I'm sorry, I encountered an error: " ++ e)] /\
  AppV1.error st' = Some ("Failed to process your request. " ++ e) /\
  AppV1.queryResult st' = None /\
  AppV1.status st' = Messages.idle.
Proof.
  intros Hq Hs Eok Eb He Hne st'. subst st'.
  assert (Hp : processQuery (Resolve resp) = Reject e).
  { simpl. rewrite Eok, Eb. simpl. rewrite He. simpl.
    destruct (String.eqb_spec e EmptyString); [contradiction | reflexivity]. }
  rewrite Hp. unfold AppV1.handleQuerySubmit, AppV1.submit_start. rewrite Hq.
  assert (Hs' : Messages.Status_eqb (AppV1.status st) Messages.loading = false)
    by (destruct (AppV1.status st); simpl; congruence).
  rewrite Hs'. simpl. rewrite removelast_app by discriminate. simpl.
  rewrite <- app_assoc. repeat split.
Qed.

Lemma AppV1_shows_backend_error_witness :
  let st := AppV1.mkState [] None Messages.idle None in
  let resp := mkResponse true 200 (Some (JObj [("error", JStr "Unsafe SQL rejected")])) in
  let st' := AppV1.handleQuerySubmit st "Drop the FIR table" (processQuery (Resolve resp)) in
  AppV1.messages st' =
    app (AppV1.messages st)
      [Messages.text_message Messages.user Messages.text_ "Drop the FIR table";
       Messages.text_message Messages.ai Messages.error_
         ("I'm sorry, I encountered an error: " ++ "Unsafe SQL rejected")] /\
  AppV1.error st' = Some ("Failed to process your request. " ++ "Unsafe SQL rejected") /\
  AppV1.queryResult st' = None /\
  AppV1.status st' = Messages.idle.
Proof.
  intros st resp st'.
  exact (AppV1_shows_backend_error st "Drop the FIR table" resp
           [("error", JStr "Unsafe SQL rejected")] "Unsafe SQL rejected"
           eq_refl ltac:(discriminate) eq_refl eq_refl eq_refl ltac:(discriminate)).
Defined.

Lemma filter_idem {A} (p : A -> bool) (l : list A) : filter p (filter p l) = filter p l.
Proof.
  induction l as [| x l IH]; simpl; [reflexivity |].
  destruct (p x) eqn:E; simpl; [rewrite E, IH |]; auto.
Qed.

Lemma AppV2_shape (st : AppV2.state) (query : string) (outcome : promise jvalue) :
  String.eqb (Gen.trim query) EmptyString = false ->
  let st' := AppV2.handleQuerySubmit st query outcome in
  AppV2.status st' = Messages.idle /\
  exists tail,
    AppV2.messages st' =
      app (AppV2.remove_status (AppV2.messages st))
          (Messages.text_message Messages.user Messages.text_ query :: tail) /\
    tail <> [] /\ (length tail <= 2)%nat /\
    Forall (fun m => Messages.sender m = Messages.ai /\ Messages.type_ m <> Messages.status_) tail.
Proof.
  intros H st'. subst st'. unfold AppV2.handleQuerySubmit. rewrite H. cbv zeta.
  destruct outcome as [r | e].
  all: repeat destruct_goal_match.
  all: (split; [reflexivity |]); eexists; split;
    [ cbn [AppV2.messages]; unfold AppV2.remove_status; rewrite ?filter_app, ?filter_idem;
      simpl; rewrite <- ?app_assoc; simpl; reflexivity
    | split; [discriminate | split; [simpl; lia | repeat constructor; discriminate]] ].
Qed.

(** The submit handler of [App.tsx]: after the submission of a non-blank
    query the status is idle and no AI status message is left in the
    transcript (the handler filters all of them out); the transcript is
    the former one without its AI status messages, then the user's
    message, then one or two AI messages (two when the response is
    accepted but building the result table throws). *)
Theorem AppV2_handleQuerySubmit_transcript (st : AppV2.state) (query : string)
  (outcome : promise jvalue) :
  String.eqb (Gen.trim query) EmptyString = false ->
  let st' := AppV2.handleQuerySubmit st query outcome in
  AppV2.status st' = Messages.idle /\
  Forall (fun m => Messages.is_ai_status m = false) (AppV2.messages st') /\
  exists tail,
    AppV2.messages st' =
      app (AppV2.remove_status (AppV2.messages st))
          (Messages.text_message Messages.user Messages.text_ query :: tail) /\
    tail <> [] /\ (length tail <= 2)%nat /\
    Forall (fun m => Messages.sender m = Messages.ai /\ Messages.type_ m <> Messages.status_) tail.
Proof.
  intros H st'. subst st'.
  destruct (AppV2_shape st query outcome H) as [Hs (tail & Em & Hne & Hlen & Hall)].
  split; [exact Hs |]. split; [| exists tail; auto].
  rewrite Em. apply Forall_app. split.
  - apply Forall_forall. intros m Hm. unfold AppV2.remove_status in Hm.
    apply filter_In in Hm as [_ Hm]. destruct (Messages.is_ai_status m); [discriminate | reflexivity].
  - constructor; [reflexivity |].
    eapply Forall_impl; [| exact Hall]. intros m [Hsend Htype].
    unfold Messages.is_ai_status. destruct (Messages.type_ m); try reflexivity. contradiction.
Qed.

Lemma AppV2_handleQuerySubmit_transcript_witness :
  let st := AppV2.mkState [Messages.text_message Messages.ai Messages.status_ "Processing your request..."]
              None Messages.idle None in
  let st' := AppV2.handleQuerySubmit st "arrests by S. Kumar"
               (Resolve (JObj [("error", JStr "No SQL could be generated")])) in
  AppV2.status st' = Messages.idle /\
  Forall (fun m => Messages.is_ai_status m = false) (AppV2.messages st') /\
  exists tail,
    AppV2.messages st' =
      app (AppV2.remove_status (AppV2.messages st))
          (Messages.text_message Messages.user Messages.text_ "arrests by S. Kumar" :: tail) /\
    tail <> [] /\ (length tail <= 2)%nat /\
    Forall (fun m => Messages.sender m = Messages.ai /\ Messages.type_ m <> Messages.status_) tail.
Proof.
  intros st st'.
  exact (AppV2_handleQuerySubmit_transcript st "arrests by S. Kumar"
           (Resolve (JObj [("error", JStr "No SQL could be generated")])) eq_refl).
Defined.





(* ------------------------------------------------------------------ *)
(** ** Pagination and CSV export ([DataTable.tsx]) *)

Import Table.

Lemma totalPages_bounds (n : nat) :
  (n = 0%nat /\ totalPages n = 0%Z) \/
  (Z.of_nat n <= 10 * totalPages n /\ 10 * (totalPages n - 1) < Z.of_nat n)%Z.
Proof.
  unfold totalPages, rowsPerPage.
  pose proof (Z.div_mod (Z.of_nat n + 10 - 1) 10 ltac:(lia)) as Hd.
  pose proof (Z.mod_pos_bound (Z.of_nat n + 10 - 1) 10 ltac:(lia)) as Hm.
  destruct n as [| n]; [left; split; reflexivity |]. right. lia.
Qed.

Lemma page_eq {A} (rows : list A) (p : nat) :
  paginatedRows rows (Z.of_nat (S p)) = firstn 10 (skipn (10 * p) rows).
Proof.
  unfold paginatedRows, js_slice, rel_index, rowsPerPage.
  replace ((Z.of_nat (S p) - 1) * 10)%Z with (Z.of_nat (10 * p)) by lia.
  replace (Z.of_nat (S p) * 10)%Z with (Z.of_nat (10 * p + 10)) by lia.
  destruct (Z.ltb_spec (Z.of_nat (10 * p)) 0); [lia |].
  destruct (Z.ltb_spec (Z.of_nat (10 * p + 10)) 0); [lia |].
  destruct (Nat.le_gt_cases (10 * p) (length rows)) as [Hle | Hgt].
  - rewrite (Z.min_l (Z.of_nat (10 * p))) by lia. rewrite Nat2Z.id.
    assert (Hs : length (skipn (10 * p) rows) = (length rows - 10 * p)%nat)
      by apply length_skipn.
    destruct (Nat.le_gt_cases (10 * p + 10) (length rows)).
    + rewrite Z.min_l by lia.
      replace (Z.to_nat (Z.of_nat (10 * p + 10) - Z.of_nat (10 * p))) with 10%nat by lia.
      reflexivity.
    + rewrite Z.min_r by lia.
      rewrite firstn_all2 by lia. rewrite firstn_all2 by lia. reflexivity.
  - rewrite Z.min_r by lia. rewrite Z.min_r by lia.
    rewrite Z.sub_diag. simpl.
    rewrite (skipn_all2 rows) by lia. reflexivity.
Qed.

Lemma pages_concat {A} (k j : nat) (l : list A) :
  (length l <= 10 * (j + k))%nat ->
  flat_map (fun i => firstn 10 (skipn (10 * i) l)) (seq j k) = skipn (10 * j) l.
Proof.
  revert j. induction k as [| k IH]; intros j Hl.
  - simpl. rewrite skipn_all2 by lia. reflexivity.
  - cbn [seq flat_map]. rewrite IH by lia.
    replace (10 * S j)%nat with (10 + 10 * j)%nat by lia.
    rewrite <- skipn_skipn, firstn_skipn. reflexivity.
Qed.

Lemma paginatedRows_le {A} (rows : list A) (p : Z) : (length (paginatedRows rows p) <= 10)%nat.
Proof.
  unfold paginatedRows, js_slice, rel_index, rowsPerPage.
  rewrite length_firstn.
  destruct (Z.ltb_spec ((p - 1) * 10) 0), (Z.ltb_spec (p * 10) 0); lia.
Qed.

Lemma click_in_range (t p : Z) (b : pager_button) :
  (0 <= t)%Z -> (1 <= p <= Z.max 1 t)%Z -> (1 <= click t p b <= Z.max 1 t)%Z.
Proof.
  intros Ht Hp. unfold click, handlePageChange.
  destruct b.
  - destruct (Z.eqb_spec p 1); [lia |].
    destruct (Z.leb_spec 1 (p - 1)), (Z.leb_spec (p - 1) t); simpl; lia.
  - destruct (Z.eqb_spec p t); [lia |].
    destruct (Z.leb_spec 1 (p + 1)), (Z.leb_spec (p + 1) t); simpl; lia.
Qed.

Lemma clicks_in_range (t p : Z) (bs : list pager_button) :
  (0 <= t)%Z -> (1 <= p <= Z.max 1 t)%Z -> (1 <= clicks t p bs <= Z.max 1 t)%Z.
Proof.
  unfold clicks. revert p. induction bs as [| b bs IH]; intros p Ht Hp; simpl.
  - exact Hp.
  - apply IH; [exact Ht | apply click_in_range; assumption].
Qed.

Lemma totalPages_nonneg (n : nat) : (0 <= totalPages n)%Z.
Proof. unfold totalPages, rowsPerPage. apply Z.div_pos; lia. Qed.

Lemma page_nonempty {A} (rows : list A) (p : Z) :
  rows <> [] -> (1 <= p <= totalPages (length rows))%Z -> paginatedRows rows p <> [].
Proof.
  intros Hne Hp.
  destruct (totalPages_bounds (length rows)) as [[Hl _] | [_ Hlt]].
  { destruct rows; [congruence | discriminate]. }
  replace p with (Z.of_nat (S (Z.to_nat (p - 1)))) by lia.
  rewrite page_eq.
  assert (Hs : length (skipn (10 * Z.to_nat (p - 1)) rows) = (length rows - 10 * Z.to_nat (p - 1))%nat)
    by apply length_skipn.
  destruct (skipn (10 * Z.to_nat (p - 1)) rows) eqn:E; [simpl in Hs; lia | discriminate].
Qed.

(** The pages [1 .. totalPages] of [DataTable], in order, hold exactly
    the rows of the result, and no page holds more than [rowsPerPage] rows. *)
Theorem paginatedRows_partition {A} (rows : list A) :
  flat_map (fun p => paginatedRows rows (Z.of_nat p)) (seq 1 (Z.to_nat (totalPages (length rows)))) = rows /\
  (forall p, (length (paginatedRows rows p) <= 10)%nat).
Proof.
  split; [| apply paginatedRows_le].
  rewrite <- seq_shift, flat_map_concat_map, map_map, <- flat_map_concat_map.
  rewrite (flat_map_ext _ (fun i => firstn 10 (skipn (10 * i) rows))) by (intro; apply page_eq).
  rewrite pages_concat by (destruct (totalPages_bounds (length rows)) as [[-> _] | [H1 H2]]; lia).
  reflexivity.
Qed.

(** Starting on page 1, any sequence of clicks on Previous and Next
    keeps [currentPage] between 1 and [max(1, totalPages)]; when there
    are rows, the page shown is never empty. *)
Theorem pager_stays_in_range {A} (rows : list A) (bs : list pager_button) :
  let t := totalPages (length rows) in
  let p := clicks t 1 bs in
  (1 <= p <= Z.max 1 t)%Z /\ (rows <> [] -> paginatedRows rows p <> []).
Proof.
  cbv zeta.
  assert (Hr : (1 <= clicks (totalPages (length rows)) 1 bs <= Z.max 1 (totalPages (length rows)))%Z)
    by (apply clicks_in_range; [apply totalPages_nonneg | lia]).
  split; [exact Hr |].
  intro Hne. apply page_nonempty; [exact Hne |].
  destruct (totalPages_bounds (length rows)) as [[Hl _] | [H1 H2]].
  - destruct rows; [congruence | discriminate].
  - assert (length rows <> 0)%nat by (destruct rows; [congruence | discriminate]).
    assert (1 <= totalPages (length rows))%Z by lia. lia.
Qed.

Lemma pager_stays_in_range_witness :
  let rows := [1;2;3;4;5;6;7;8;9;10;11;12]%nat in
  rows <> [] /\ paginatedRows rows (clicks (totalPages (length rows)) 1 [Next; Next; Previous; Next]) <> [].
Proof.
  intros rows. split; [discriminate |].
  exact (proj2 (pager_stays_in_range rows [Next; Next; Previous; Next]) ltac:(discriminate)).
Defined.

Lemma stuck_clicks (u : table) (bs : list pager_button) :
  (totalPages (length (rows (data u))) + 2 <= currentPage u)%Z ->
  currentPage (fold_left table_step (map Click bs) u) = currentPage u.
Proof.
  revert u. induction bs as [| b bs IH]; intros u Hp; simpl; [reflexivity |].
  assert (Hc : click (totalPages (length (rows (data u)))) (currentPage u) b = currentPage u).
  { pose proof (totalPages_nonneg (length (rows (data u)))).
    unfold click, handlePageChange. destruct b.
    - destruct (Z.eqb_spec (currentPage u) 1); [reflexivity |].
      destruct (Z.leb_spec (currentPage u - 1) (totalPages (length (rows (data u))))); [lia |].
      rewrite andb_false_r. reflexivity.
    - destruct (Z.eqb_spec (currentPage u) (totalPages (length (rows (data u))))); [reflexivity |].
      destruct (Z.leb_spec (currentPage u + 1) (totalPages (length (rows (data u))))); [lia |].
      rewrite andb_false_r. reflexivity. }
  rewrite IH; simpl; rewrite Hc; [reflexivity | exact Hp].
Qed.

(** [currentPage] survives a new [data] prop. When it lies two or more
    pages past the new [totalPages], the table shows no rows, and neither
    Previous nor Next can change the page any more. *)
Theorem stale_page_after_new_data (t : table) (d : QueryResult) :
  (totalPages (length (rows d)) + 2 <= currentPage t)%Z ->
  let t' := table_step t (SetData d) in
  paginatedRows (rows d) (currentPage t') = [] /\
  forall bs, currentPage (fold_left table_step (map Click bs) t') = currentPage t'.
Proof.
  intros Hp. cbv zeta. simpl. split.
  - destruct (totalPages_bounds (length (rows d))) as [[Hl Ht] | [H1 H2]].
    + rewrite Ht in Hp. replace (currentPage t) with (Z.of_nat (S (Z.to_nat (currentPage t - 1)))) by lia.
      rewrite page_eq. rewrite skipn_all2 by lia. apply firstn_nil.
    + replace (currentPage t) with (Z.of_nat (S (Z.to_nat (currentPage t - 1)))) by lia.
      rewrite page_eq. rewrite skipn_all2 by lia. apply firstn_nil.
  - intros bs. exact (stuck_clicks (mkTable d (currentPage t)) bs Hp).
Qed.

Lemma stale_page_after_new_data_witness :
  let d25 := mkQueryResult ["n"] (map (fun i => [CNum (Z.of_nat i)]) (seq 0 25)) "SELECT n FROM t" in
  let d5 := mkQueryResult ["n"] (map (fun i => [CNum (Z.of_nat i)]) (seq 0 5)) "SELECT n FROM t" in
  let t := fold_left table_step [Click Next; Click Next] (mount d25) in
  (totalPages (length (rows d5)) + 2 <= currentPage t)%Z /\
  paginatedRows (rows d5) (currentPage (table_step t (SetData d5))) = [].
Proof.
  intros d25 d5 t.
  assert (H : (totalPages (length (rows d5)) + 2 <= currentPage t)%Z) by (vm_compute; discriminate).
  split; [exact H | exact (proj1 (stale_page_after_new_data t d5 H))].
Defined.

Lemma list_ascii_of_string_app (s t : string) :
  list_ascii_of_string (s ++ t) = app (list_ascii_of_string s) (list_ascii_of_string t).
Proof. induction s as [| a s IH]; simpl; [reflexivity | rewrite IH; reflexivity]. Qed.

Lemma split_on_none (c : ascii) (s : string) : no_char c s -> split_on c s = [s].
Proof.
  induction s as [| d s IH]; intros H; simpl; [reflexivity |].
  destruct (Ascii.eqb_spec c d) as [-> | Hne].
  - exfalso. apply (H d); [left; reflexivity | reflexivity].
  - rewrite IH; [reflexivity |]. intros ch Hin. apply H. right. exact Hin.
Qed.

Lemma split_on_app (c : ascii) (a b : string) :
  no_char c a -> split_on c (a ++ String c b) = a :: split_on c b.
Proof.
  induction a as [| d a IH]; intros H; simpl.
  - rewrite Ascii.eqb_refl. reflexivity.
  - destruct (Ascii.eqb_spec c d) as [-> | Hne].
    + exfalso. apply (H d); [left; reflexivity | reflexivity].
    + rewrite IH; [reflexivity |]. intros ch Hin. apply H. right. exact Hin.
Qed.

Lemma split_on_concat (c : ascii) (xs : list string) :
  xs <> [] -> Forall (no_char c) xs -> split_on c (String.concat (String c EmptyString) xs) = xs.
Proof.
  induction xs as [| x xs IH]; intros Hne Hf; [congruence |].
  inversion Hf as [| ? ? Hx Hxs]; subst.
  destruct xs as [| y ys].
  - simpl. apply split_on_none. exact Hx.
  - change (String.concat (String c EmptyString) (x :: y :: ys))
      with (x ++ String c (String.concat (String c EmptyString) (y :: ys))).
    rewrite split_on_app by exact Hx. rewrite IH; [reflexivity | discriminate | exact Hxs].
Qed.

Lemma no_char_concat (c : ascii) (sep : string) (xs : list string) :
  no_char c sep -> Forall (no_char c) xs -> no_char c (String.concat sep xs).
Proof.
  intros Hs. induction xs as [| x xs IH]; intros Hf; [intros ch [] |].
  inversion Hf as [| ? ? Hx Hxs]; subst.
  destruct xs as [| y ys]; [exact Hx |].
  change (String.concat sep (x :: y :: ys)) with (x ++ sep ++ String.concat sep (y :: ys)).
  intros ch Hin. rewrite !list_ascii_of_string_app in Hin.
  apply in_app_or in Hin as [Hin | Hin]; [exact (Hx ch Hin) |].
  apply in_app_or in Hin as [Hin | Hin]; [exact (Hs ch Hin) | exact (IH Hxs ch Hin)].
Qed.

Lemma plain_field_no_char (s : string) :
  plain_field s = true -> no_char comma s /\ no_char (ascii_of_nat 10) s.
Proof.
  unfold plain_field. rewrite forallb_forall. intros H.
  split; intros ch Hin Heq; specialize (H ch Hin); subst ch;
    apply andb_prop in H as [H1 H2]; apply negb_true_iff in H1, H2.
  - rewrite Ascii.eqb_refl in H1. discriminate.
  - rewrite Ascii.eqb_refl in H2. discriminate.
Qed.

Lemma prefix_app (p r : string) : String.prefix p (p ++ r) = true.
Proof.
  induction p as [| a p IH]; [destruct r; reflexivity |]. simpl.
  destruct (ascii_dec a a) as [_ | Hn]; [exact IH | contradiction Hn; reflexivity].
Qed.

Lemma drop_csv_prefix (r : string) : drop (String.length csv_prefix) (csv_prefix ++ r) = r.
Proof. unfold drop. simpl. rewrite Nat.sub_0_r. apply substring_0_full. Qed.

(** A CSV export of [downloadCSV] reads back, line by line and comma by
    comma, as the column names and the [String] of every cell, provided
    there is at least one column and one row, no row is empty, and no
    column name or cell text holds a comma or a line feed. *)
Theorem csv_round_trip (columns : list string) (rows : list (list cell)) :
  columns <> [] -> rows <> [] -> Forall (fun r => r <> []) rows ->
  Forall (fun c => plain_field c = true) columns ->
  Forall (fun r => Forall (fun x => plain_field (cell_string x) = true) r) rows ->
  csv_decode (csvContent columns rows) = Some (columns, map (map cell_string) rows).
Proof.
  intros Hc Hr Hne Hpc Hpr.
  assert (Hcols : Forall (fun c => no_char comma c /\ no_char (ascii_of_nat 10) c) columns)
    by (eapply Forall_impl; [| exact Hpc]; intros ? H; apply plain_field_no_char; exact H).
  assert (Hcells : Forall (fun r => Forall (fun x => no_char comma x /\ no_char (ascii_of_nat 10) x)
                                             (map cell_string r)) rows).
  { eapply Forall_impl; [| exact Hpr]. intros r Hr'. apply Forall_map.
    eapply Forall_impl; [| exact Hr']. intros x Hx. apply plain_field_no_char. exact Hx. }
  assert (Hsep : no_char (ascii_of_nat 10) ",") by (intros ch [<- | []]; discriminate).
  unfold csv_decode, csvContent.
  change "data:text/csv;charset=utf-8," with csv_prefix.
  rewrite drop_csv_prefix.
  rewrite prefix_app.
  unfold nl. cbn [String.append]. rewrite split_on_app.
  2: { apply no_char_concat; [exact Hsep |].
       eapply Forall_impl; [| exact Hcols]. intros ? [_ H]; exact H. }
  rewrite (split_on_concat (ascii_of_nat 10) (map _ rows)).
  - f_equal. f_equal.
    + apply split_on_concat; [exact Hc |].
      eapply Forall_impl; [| exact Hcols]. intros ? [H _]; exact H.
    + rewrite map_map. apply map_ext_Forall.
      eapply Forall_impl; [| apply Forall_and; [exact Hne | exact Hcells]].
      intros r [Hr1 Hr2]. apply split_on_concat.
      * destruct r; [congruence | discriminate].
      * eapply Forall_impl; [| exact Hr2]. intros ? [H _]; exact H.
  - destruct rows; [congruence | discriminate].
  - apply Forall_map. eapply Forall_impl; [| exact Hcells]. intros r Hr2.
    apply no_char_concat; [exact Hsep |].
    eapply Forall_impl; [| exact Hr2]. intros ? [_ H]; exact H.
Qed.

Lemma csv_round_trip_witness :
  let columns := ["district"; "firs"] in
  let rows := [[CStr "Guntur"; CNum 12]; [CStr "Krishna"; CNum 7]] in
  (columns <> [] /\ rows <> [] /\ Forall (fun r => r <> []) rows /\
   Forall (fun c => plain_field c = true) columns /\
   Forall (fun r => Forall (fun x => plain_field (cell_string x) = true) r) rows) /\
  csv_decode (csvContent columns rows) = Some (columns, map (map cell_string) rows).
Proof.
  intros columns rows.
  assert (H1 : columns <> []) by discriminate.
  assert (H2 : rows <> []) by discriminate.
  assert (H3 : Forall (fun r => r <> []) rows)
    by (repeat constructor; discriminate).
  assert (H4 : Forall (fun c => plain_field c = true) columns)
    by (repeat constructor).
  assert (H5 : Forall (fun r => Forall (fun x => plain_field (cell_string x) = true) r) rows)
    by (repeat constructor).
  split; [repeat split; assumption | exact (csv_round_trip columns rows H1 H2 H3 H4 H5)].
Defined.

(** [downloadCSV] writes cells without quoting: a text cell holding a
    comma exports to the same text as the two cells on either side of
    that comma, so the export cannot tell them apart. *)
Theorem csv_comma_in_cell_splits (columns : list string) (rows1 rows2 : list (list cell))
  (a b : string) (row : list cell) :
  csvContent columns (rows1 ++ (CStr (a ++ "," ++ b) :: row) :: rows2) =
  csvContent columns (rows1 ++ (CStr a :: CStr b :: row) :: rows2).
Proof.
  unfold csvContent. rewrite !map_app. cbn [map].
  assert (Hc : cell_string (CStr (a ++ "," ++ b)) = a ++ "," ++ b) by reflexivity.
  assert (Ha : cell_string (CStr a) = a) by reflexivity.
  assert (Hb : cell_string (CStr b) = b) by reflexivity.
  rewrite Hc, Ha, Hb.
  destruct (map cell_string row) as [| x xs].
  - reflexivity.
  - change (String.concat "," ((a ++ "," ++ b) :: x :: xs))
      with ((a ++ "," ++ b) ++ "," ++ String.concat "," (x :: xs)).
    change (String.concat "," (a :: b :: x :: xs))
      with (a ++ "," ++ (b ++ "," ++ String.concat "," (x :: xs))).
    rewrite !str_app_assoc. reflexivity.
Qed.

(* ------------------------------------------------------------------ *)
(** ** Aggregating strategies of [chartData] *)

Import Chart.

Lemma counter_set_keys (acc : counter) (k k' : string) (n : nat) :
  In k' (map fst (counter_set acc k n)) -> k' = k \/ In k' (map fst acc).
Proof.
  induction acc as [| [k0 m] r IH]; simpl.
  - intros [H | []]. left. symmetry. exact H.
  - destruct (String.eqb k k0); simpl.
    + intros [H | H]; right; [left; exact H | right; exact H].
    + intros [H | H]; [right; left; exact H |].
      destruct (IH H) as [H' | H']; [left; exact H' | right; right; exact H'].
Qed.

Lemma counter_set_nodup (acc : counter) (k : string) (n : nat) :
  NoDup (map fst acc) -> NoDup (map fst (counter_set acc k n)).
Proof.
  induction acc as [| [k0 m] r IH]; simpl; intros Hn.
  - constructor; [intros [] | constructor].
  - inversion Hn as [| ? ? Hk0 Hr]; subst.
    destruct (String.eqb_spec k k0) as [-> | Hne]; simpl.
    + exact Hn.
    + constructor; [| exact (IH Hr)].
      intros Hin. destruct (counter_set_keys r k k0 n Hin) as [-> | H]; [congruence | contradiction].
Qed.

Lemma counter_set_total (acc : counter) (k : string) (n : nat) :
  (counter_total (counter_set acc k n) + match counter_get acc k with Some m => m | None => 0 end
   = counter_total acc + n)%nat.
Proof.
  unfold counter_total. induction acc as [| [k0 m] r IH]; simpl.
  - lia.
  - destruct (String.eqb k k0); simpl; lia.
Qed.

Lemma bump_total (acc : counter) (k : string) :
  counter_total (bump acc k) = S (counter_total acc).
Proof.
  unfold bump. pose proof (counter_set_total acc k
    (match counter_get acc k with Some n => n | None => 0 end + 1)). lia.
Qed.

Lemma count_months_throw (rs : list (list cell)) (d : Z) (acc : counter) :
  (exists e, count_months rs d acc = Throw e) <->
  exists row, In row rs /\ forall s, at_ row d <> Some (CStr s).
Proof.
  revert acc. induction rs as [| row r IH]; intros acc; simpl.
  - split; [intros [e He]; discriminate | intros [row [[] _]]].
  - destruct (at_ row d) as [[s | z] |] eqn:Ea.
    + rewrite IH. split.
      * intros [row' [Hin H]]. exists row'. split; [right; exact Hin | exact H].
      * intros [row' [[<- | Hin] H]]; [exfalso; exact (H s Ea) |].
        exists row'. split; [exact Hin | exact H].
    + split; [intros _; exists row; split; [left; reflexivity | intros s Hs; rewrite Ea in Hs; discriminate] |].
      intros _. eexists. reflexivity.
    + split; [intros _; exists row; split; [left; reflexivity | intros s Hs; rewrite Ea in Hs; discriminate] |].
      intros _. eexists. reflexivity.
Qed.

Lemma count_months_normal (rs : list (list cell)) (d : Z) (acc acc' : counter) :
  count_months rs d acc = Normal acc' -> NoDup (map fst acc) ->
  NoDup (map fst acc') /\ counter_total acc' = (counter_total acc + length rs)%nat.
Proof.
  revert acc. induction rs as [| row r IH]; intros acc Hc Hn; simpl in Hc.
  - injection Hc as <-. simpl. split; [exact Hn | lia].
  - destruct (at_ row d) as [[s | z] |]; try discriminate.
    destruct (IH _ Hc) as [H1 H2]; [apply counter_set_nodup, Hn |].
    split; [exact H1 |]. rewrite H2, bump_total. simpl. lia.
Qed.

Lemma count_labels_fold (rs : list (list cell)) (l : Z) (acc : counter) :
  NoDup (map fst acc) ->
  let acc' := fold_left (fun acc row => bump acc (js_String (at_ row l))) rs acc in
  NoDup (map fst acc') /\ counter_total acc' = (counter_total acc + length rs)%nat.
Proof.
  revert acc. induction rs as [| row r IH]; intros acc Hn; simpl.
  - split; [exact Hn | lia].
  - destruct (IH (bump acc (js_String (at_ row l)))) as [H1 H2]; [apply counter_set_nodup, Hn |].
    split; [exact H1 |]. rewrite H2, bump_total. lia.
Qed.

Lemma insert_by_perm {A} (le : A -> A -> bool) (x : A) (l : list A) :
  Permutation (insert_by le x l) (x :: l).
Proof.
  induction l as [| y r IH]; simpl; [reflexivity |].
  destruct (le y x); [| reflexivity].
  rewrite IH. apply perm_swap.
Qed.

Lemma sort_by_perm {A} (le : A -> A -> bool) (l : list A) : Permutation (sort_by le l) l.
Proof.
  unfold sort_by.
  assert (H : forall acc, Permutation (fold_left (fun acc x => insert_by le x acc) l acc) (app l acc)).
  { induction l as [| x r IH]; intros acc; simpl; [reflexivity |].
    rewrite IH, insert_by_perm. symmetry. apply Permutation_middle. }
  rewrite H, app_nil_r. reflexivity.
Qed.

Lemma filter_split_perm {A} (p q : A -> bool) (l : list A) :
  (forall x, q x = negb (p x)) -> Permutation (app (filter p l) (filter q l)) l.
Proof.
  intros Hq. induction l as [| x r IH]; simpl; [reflexivity |].
  rewrite Hq. destruct (p x); simpl.
  - constructor. exact IH.
  - rewrite <- Permutation_middle. constructor. exact IH.
Qed.

Lemma entries_perm (acc : counter) : Permutation (entries acc) acc.
Proof.
  unfold entries. rewrite sort_by_perm. apply filter_split_perm.
  intros [k n]. simpl. destruct (index_key k); reflexivity.
Qed.

Lemma points_total_perm (l l' : list point) : Permutation l l' -> points_total l = points_total l'.
Proof. induction 1; simpl; lia. Qed.

Lemma points_total_to_points (l : list (string * nat)) :
  points_total (to_points l) = Z.of_nat (counter_total l).
Proof.
  unfold counter_total. induction l as [| [k n] r IH]; simpl; [reflexivity |].
  rewrite IH. lia.
Qed.

Lemma names_to_points (l : list (string * nat)) : map name (to_points l) = map fst l.
Proof. unfold to_points. rewrite map_map. reflexivity. Qed.

Lemma counter_series (acc : counter) (pts : list point) :
  Permutation pts (to_points (entries acc)) -> NoDup (map fst acc) ->
  NoDup (map name pts) /\ points_total pts = Z.of_nat (counter_total acc).
Proof.
  intros Hp Hn. split.
  - apply (Permutation_NoDup (l := map fst acc)); [| exact Hn].
    rewrite Hp, names_to_points. apply Permutation_map. symmetry. apply entries_perm.
  - rewrite (points_total_perm _ _ Hp), points_total_to_points.
    unfold counter_total. f_equal. apply Permutation_list_sum, Permutation_map, entries_perm.
Qed.

(** [chartData] throws exactly when strategy 2 is taken (no numeric
    cell in the first row, a [YYYY-MM-DD] string in it) and some row has
    no string in that date column. *)
Theorem chartData_throws_iff (d : QueryResult) :
  (exists e, chartData d = Throw e) <->
  exists firstRow r, rows d = firstRow :: r /\
    findIndex (fun c _ => is_number c) firstRow = (-1)%Z /\
    let di := findIndex (fun c _ => match c with CStr s => dateRegex_test s | CNum _ => false end)
                        firstRow in
    di <> (-1)%Z /\ exists row, In row (rows d) /\ forall s, at_ row di <> Some (CStr s).
Proof.
  unfold chartData. destruct (rows d) as [| firstRow r] eqn:Er.
  - split; [intros [e He]; discriminate | intros [f [r [H _]]]; discriminate].
  - cbv zeta.
    destruct (Z.eqb_spec (findIndex (fun c _ => is_number c) firstRow) (-1)) as [Hn | Hn]; cbn [negb].
    + destruct (Z.eqb_spec (findIndex (fun c _ => match c with CStr s => dateRegex_test s
                                                               | CNum _ => false end) firstRow) (-1))
        as [Hd | Hd]; cbn [negb].
      * destruct (Z.eqb (findIndex (fun c _ => is_string c) firstRow) (-1)); cbn [negb].
        -- split; [intros [e He]; discriminate | intros [f [r' [E [_ [H _]]]]]].
           injection E as <- <-. contradiction.
        -- destruct (1 <? length _)%nat;
             (split; [intros [e He]; discriminate | intros [f [r' [E [_ [H _]]]]]]);
             injection E as <- <-; contradiction.
      * split.
        -- intros [e He].
           destruct (count_months (firstRow :: r) _ []) as [agg | m] eqn:Ec; [discriminate |].
           exists firstRow, r. split; [reflexivity |]. split; [exact Hn |]. split; [exact Hd |].
           apply (proj1 (count_months_throw _ _ [])). exists m. exact Ec.
        -- intros [f [r' [E [_ [_ Hrow]]]]]. injection E as <- <-.
           destruct (proj2 (count_months_throw (firstRow :: r) _ []) Hrow) as [m Hm].
           rewrite Hm. exists m. reflexivity.
    + split; [intros [e He]; discriminate | intros [f [r' [E [H _]]]]].
      injection E as <- <-. contradiction.
Qed.

Lemma chartData_throws_iff_witness :
  let d := mkQueryResult ["arrest_date"] [[CStr "2025-05-15"]; [CStr "2025-06-01"]; []] "" in
  exists e, chartData d = Throw e.
Proof.
  intros d. apply (proj2 (chartData_throws_iff d)).
  exists [CStr "2025-05-15"], [[CStr "2025-06-01"]; []].
  split; [reflexivity |]. split; [reflexivity |]. split; [discriminate |].
  exists []. split; [right; right; left; reflexivity | intros s; discriminate].
Defined.

(** When the first row has no numeric cell, and no string of the rows
    (nor its month prefix) names a property of [Object.prototype], a
    chart that [chartData] returns is either empty or one point per
    distinct key (month or label) whose values add up to the number of
    rows. *)
Theorem chartData_counts_rows (d : QueryResult) (pts : list point) :
  no_proto_keys (rows d) = true ->
  findIndex (fun c _ => is_number c) (hd [] (rows d)) = (-1)%Z ->
  chartData d = Normal pts ->
  pts = [] \/ (NoDup (map name pts) /\ points_total pts = Z.of_nat (length (rows d))).
Proof.
  unfold chartData. destruct (rows d) as [| firstRow r] eqn:Er; cbn [hd].
  - intros _ _ H. injection H as <-. left. reflexivity.
  - intros _ Hn. rewrite Hn. cbn [negb Z.eqb].
    destruct (Z.eqb (findIndex (fun c _ => match c with CStr s => dateRegex_test s
                                                      | CNum _ => false end) firstRow) (-1)); cbn [negb].
    + destruct (Z.eqb (findIndex (fun c _ => is_string c) firstRow) (-1)); cbn [negb].
      * intros H. injection H as <-. left. reflexivity.
      * destruct (1 <? length _)%nat; intros H; injection H as <-; [right | left; reflexivity].
        destruct (count_labels_fold (firstRow :: r) (findIndex (fun c _ => is_string c) firstRow) []
                   (NoDup_nil _)) as [H1 H2].
        assert (H3 : length (firstRow :: r) = counter_total (count_labels (firstRow :: r)
                       (findIndex (fun c _ => is_string c) firstRow))) by (unfold count_labels; rewrite H2; reflexivity).
        rewrite H3.
        apply counter_series; [reflexivity | exact H1].
    + destruct (count_months (firstRow :: r) _ []) as [agg | m] eqn:Ec; [| discriminate].
      intros H. injection H as <-. right.
      destruct (count_months_normal _ _ _ _ Ec (NoDup_nil _)) as [H1 H2].
      assert (H3 : length (firstRow :: r) = counter_total agg) by (rewrite H2; reflexivity).
      rewrite H3.
      apply counter_series; [apply sort_by_perm | exact H1].
Qed.

Lemma chartData_counts_rows_witness :
  let d := mkQueryResult ["district"] [[CStr "Guntur"]; [CStr "Krishna"]; [CStr "Guntur"]] "" in
  no_proto_keys (rows d) = true /\
  findIndex (fun c _ => is_number c) (hd [] (rows d)) = (-1)%Z /\
  exists pts, chartData d = Normal pts /\
    (pts = [] \/ (NoDup (map name pts) /\ points_total pts = Z.of_nat (length (rows d)))).
Proof.
  intros d. split; [reflexivity |]. split; [reflexivity |].
  destruct (chartData d) as [pts | e] eqn:E; [| discriminate].
  exists pts. split; [reflexivity |].
  exact (chartData_counts_rows d pts eq_refl eq_refl E).
Defined.

